(** * Queernel: verification state machine of the 42 student bot

    Shallow embedding of [src/bot/src/index.js] (the Express handlers
    [/auth/callback], [/auth/rules/accept], [/auth/rules/decline], the
    member-join handler) and of [src/bot/src/fortytwo-api.js]
    ([FortyTwoAPI.validateStudentStatus], [cleanupExpiredVerifications],
    [exchangeCodeForToken], [getUserInfo]).

    - JSON payloads of the 42 API are JS values ([jsval]); property access
      follows JS: reading a property of [undefined] or [null] throws a
      TypeError, arrays and strings have a [length], other properties of
      primitives are [undefined].
    - The registry [pendingVerifications] is a JS [Map]: an insertion-ordered
      association list; [set] on a present key updates in place, on a new key
      appends; [delete] removes the key.
    - Handlers run in a state and exception monad [M] over the registry and a
      trace of observable calls (role grants, direct messages, warnings and
      registry writes).  A [throw] that reaches the top of a handler is an
      unhandled rejection: the request gets no response.
    - Node interleaves requests at [await]: the callback and accept handlers
      are split into the part before their first [await] (which reads the
      registry) and the part after (which writes it); nothing touches the
      registry between their awaits, so this split is exact for the
      registry.  Debug logging is a no-op (DEBUG unset) except for the
      property reads it performs, which can throw. *)

From Stdlib Require Import String ZArith List Bool Lia.
From Stdlib Require Import Ascii DecimalString Strings.Byte.
Import ListNotations.
Open Scope string_scope.
Open Scope Z_scope.

(** ** JS values *)

Set Warnings "-register-all".

Inductive jsval : Type :=
| JUndefined
| JNull
| JBool (b : bool)
| JNum (n : Z)
| JStr (s : string)
| JArr (l : list jsval)
| JObj (fields : list (string * jsval)).

(** JS truthiness ([!v] is [negb (truthy v)]). *)
Definition truthy (v : jsval) : bool :=
  match v with
  | JUndefined | JNull => false
  | JBool b => b
  | JNum n => negb (Z.eqb n 0)
  | JStr s => negb (String.eqb s "")
  | JArr _ | JObj _ => true
  end.

(** [===] against a primitive literal: objects and arrays are never
    identical to a literal. *)
Definition strict_eq (v w : jsval) : bool :=
  match v, w with
  | JUndefined, JUndefined | JNull, JNull => true
  | JBool a, JBool b => Bool.eqb a b
  | JNum a, JNum b => Z.eqb a b
  | JStr a, JStr b => String.eqb a b
  | _, _ => false
  end.

(** Completion of a JS computation: a value or a thrown error message. *)
Inductive Result (A : Type) : Type :=
| Ok (a : A)
| Throw (message : string).
Arguments Ok {A} a.
Arguments Throw {A} message.

Definition rbind {A B} (r : Result A) (k : A -> Result B) : Result B :=
  match r with
  | Ok a => k a
  | Throw m => Throw m
  end.

Notation "'let?' x ':=' r 'in' k" := (rbind r (fun x => k))
  (at level 200, x name, r at level 100, k at level 200).

Fixpoint own_prop (k : string) (fs : list (string * jsval)) : jsval :=
  match fs with
  | [] => JUndefined
  | (k', v) :: fs' => if String.eqb k k' then v else own_prop k fs'
  end.

(** [v.k] (and [v[k]]). *)
Definition get_prop (v : jsval) (k : string) : Result jsval :=
  match v with
  | JUndefined => Throw ("Cannot read properties of undefined (reading '" ++ k ++ "')")
  | JNull => Throw ("Cannot read properties of null (reading '" ++ k ++ "')")
  | JObj fs => Ok (own_prop k fs)
  | JArr l => Ok (if String.eqb k "length" then JNum (Z.of_nat (List.length l)) else JUndefined)
  | JStr s => Ok (if String.eqb k "length" then JNum (Z.of_nat (String.length s)) else JUndefined)
  | JBool _ | JNum _ => Ok JUndefined
  end.

(** ** [FortyTwoAPI.validateStudentStatus] (fortytwo-api.js, 193-226)

    Returns the verdict and the [console.warn] messages it emits. *)

Inductive Warning : Type :=
| NoPoolYear (login : jsval).

Definition validateStudentStatus (userData : jsval) : Result (bool * list Warning) :=
  if negb (truthy userData) then Ok (false, []) else
  let? login := get_prop userData "login" in
  if negb (truthy login) then Ok (false, []) else
  let? email := get_prop userData "email" in
  if negb (truthy email) then Ok (false, []) else
  let? staff := get_prop userData "staff?" in
  if truthy staff then Ok (false, []) else
  let? cursus := get_prop userData "cursus_users" in
  if negb (truthy cursus) then Ok (false, []) else
  let? cursus_len := get_prop cursus "length" in
  if strict_eq cursus_len (JNum 0) then Ok (false, []) else
  let? campus := get_prop userData "campus" in
  if negb (truthy campus) then Ok (false, []) else
  let? campus_len := get_prop campus "length" in
  if strict_eq campus_len (JNum 0) then Ok (false, []) else
  let? active := get_prop userData "active?" in
  if strict_eq active (JBool false) then Ok (false, []) else
  let? pool_year := get_prop userData "pool_year" in
  let? no_pool :=
    (if negb (truthy pool_year) then
       let? pool_month := get_prop userData "pool_month" in
       Ok (negb (truthy pool_month))
     else Ok false) in
  if no_pool then
    let? login' := get_prop userData "login" in
    Ok (true, [NoPoolYear login'])
  else Ok (true, []).

(** The verdict, [None] when the call throws. *)
Definition verdict (userData : jsval) : option bool :=
  match validateStudentStatus userData with
  | Ok (b, _) => Some b
  | Throw _ => None
  end.

(** Reading a property the way the spec's conditions do ([undefined] for
    [undefined] and [null]). *)
Definition prop (v : jsval) (k : string) : jsval :=
  match get_prop v k with Ok w => w | Throw _ => JUndefined end.

Definition nonempty_array (v : jsval) : bool :=
  match v with JArr (_ :: _) => true | _ => false end.

Definition missing_or_empty_array (v : jsval) : bool :=
  match v with JUndefined | JNull | JArr [] => true | _ => false end.

(** The five eligibility conditions of the spec (section 4.3). *)
Definition five_conditions (v : jsval) : bool :=
  truthy v && truthy (prop v "login") && truthy (prop v "email")
  && negb (truthy (prop v "staff?"))
  && nonempty_array (prop v "cursus_users")
  && nonempty_array (prop v "campus")
  && negb (strict_eq (prop v "active?") (JBool false)).

(** ** The registry [pendingVerifications] (index.js, 39) *)

(** A verification record: [{ discordUserId, discordUsername, timestamp }]
    at creation, extended with [userData] and [step: 'rules_pending'] by the
    callback.  An absent [userData] reads as [undefined]. *)
Record Verification : Type := mkVerification {
  discordUserId : string;
  discordUsername : string;
  timestamp : Z;
  userData : jsval;
  step : option string
}.

Definition rules_pending : string := "rules_pending".

Definition is_rules_pending (v : Verification) : bool :=
  match step v with
  | Some s => String.eqb s rules_pending
  | None => false
  end.

Definition Reg : Type := list (string * Verification).

Fixpoint map_get (k : string) (m : Reg) : option Verification :=
  match m with
  | [] => None
  | (k', v) :: m' => if String.eqb k k' then Some v else map_get k m'
  end.

Fixpoint map_set (k : string) (v : Verification) (m : Reg) : Reg :=
  match m with
  | [] => [(k, v)]
  | (k', v') :: m' =>
      if String.eqb k k' then (k', v) :: m' else (k', v') :: map_set k v m'
  end.

Definition map_delete (k : string) (m : Reg) : Reg :=
  filter (fun kv => negb (String.eqb k (fst kv))) m.

(** ** Observable calls and the handler monad *)

Inductive Effect : Type :=
| EGrant (uid : string)          (** [member.roles.add(role)] is called *)
| EWelcomeDM (uid : string)      (** welcome [member.send] is called *)
| EPublicNotice (uid : string)   (** [systemChannel.send] is called *)
| ESuccessDM (uid : string)      (** success [member.send] is called *)
| EWarn (w : Warning)            (** [console.warn] *)
| ERegSet (k : string)           (** [pendingVerifications.set(k, _)] *)
| ERegDelete (k : string).       (** [pendingVerifications.delete(k)] *)

Record St : Type := mkSt { reg : Reg; trace : list Effect }.

Definition M (A : Type) : Type := St -> Result A * St.

Definition ret {A} (a : A) : M A := fun s => (Ok a, s).

Definition bind {A B} (m : M A) (k : A -> M B) : M B :=
  fun s => match m s with
           | (Ok a, s') => k a s'
           | (Throw e, s') => (Throw e, s')
           end.

Notation "'let*' x ':=' m 'in' k" := (bind m (fun x => k))
  (at level 200, x name, m at level 100, k at level 200).
Notation "m ;; k" := (bind m (fun _ : unit => k))
  (at level 100, right associativity).

Definition throw {A} (msg : string) : M A := fun s => (Throw msg, s).

Definition lift {A} (r : Result A) : M A := fun s => (r, s).

(** [try { m } catch (error) { h(error.message) }] *)
Definition try_catch {A} (m : M A) (h : string -> M A) : M A :=
  fun s => match m s with
           | (Throw e, s') => h e s'
           | r => r
           end.

Definition emit (e : Effect) : M unit :=
  fun s => (Ok tt, mkSt (reg s) (trace s ++ [e])).

Definition get_reg : M Reg := fun s => (Ok (reg s), s).

Definition reg_get (k : string) : M (option Verification) :=
  fun s => (Ok (map_get k (reg s)), s).

Definition reg_set (k : string) (v : Verification) : M unit :=
  fun s => (Ok tt, mkSt (map_set k v (reg s)) (trace s ++ [ERegSet k])).

Definition reg_delete (k : string) : M unit :=
  fun s => (Ok tt, mkSt (map_delete k (reg s)) (trace s ++ [ERegDelete k])).

Fixpoint emit_all (ws : list Warning) : M unit :=
  match ws with
  | [] => ret tt
  | w :: ws' => emit (EWarn w);; emit_all ws'
  end.

(** ** Pages sent with [res.send] *)

Inductive Page : Type :=
| PageCallbackError (error : string)    (** index.js 210-219 *)
| PageMissingParams                     (** index.js 224-233 *)
| PageInvalidState                      (** index.js 240-249 *)
| PageRules (state : string)            (** index.js 317-423 *)
| PageVerificationError (msg : string)  (** index.js 432-441 and 608-617 *)
| PageMissingState                      (** index.js 453-462 and 629-638 *)
| PageRulesInvalid                      (** index.js 469-478 and 645-654 *)
| PageSuccess                           (** index.js 559-599 *)
| PageDeclined.                         (** index.js 666-706 *)

(** The text of each page: its [<title>] and its paragraphs (markup,
    styles and emoji left out). *)
Definition render (p : Page) : string * list string :=
  match p with
  | PageCallbackError e =>
      ("Verification Failed",
       ["Verification Failed"; "Error: " ++ e;
        "Please try again or contact an administrator."])
  | PageMissingParams =>
      ("Verification Failed",
       ["Verification Failed"; "Missing authorization code or state parameter.";
        "Please try again."])
  | PageInvalidState =>
      ("Verification Failed",
       ["Verification Failed"; "Invalid or expired verification request.";
        "Please try joining the server again."])
  | PageRules st =>
      ("Queernel Rules - Accept to Continue",
       ["Welcome to Queernel!"; "You have been verified as a 42 student";
        "/auth/rules/accept?state=" ++ st; "/auth/rules/decline?state=" ++ st])
  | PageVerificationError m =>
      ("Verification Failed",
       ["Verification Failed"; "An error occurred during verification: " ++ m;
        "Please try again or contact an administrator."])
  | PageMissingState =>
      ("Error", ["Error"; "Missing state parameter.";
                 "Please try joining the server again."])
  | PageRulesInvalid =>
      ("Error", ["Error"; "Invalid or expired verification request.";
                 "Please try joining the server again."])
  | PageSuccess =>
      ("Verification Successful",
       ["Verification Successful!"; "Welcome to Queernel!"])
  | PageDeclined =>
      ("Verification Declined",
       ["Verification Declined"; "Rules Not Accepted"])
  end.

Definition invalid_or_expired (p : Page) : bool :=
  match p with PageInvalidState | PageRulesInvalid => true | _ => false end.

(** ** Requests *)

(** [req.query]: each parameter absent or a string. *)
Record Query : Type := mkQuery {
  q_code : option string;
  q_state : option string;
  q_error : option string
}.

(** Truthiness of a query parameter. *)
Definition qtruthy (o : option string) : option string :=
  match o with
  | Some s => if String.eqb s "" then None else Some s
  | None => None
  end.

(** ** External collaborators

    The outcome of each external call made while serving one request.  An
    axios failure carries [error.response?.data?.error_description ||
    error.message]; a discord.js rejection carries its message. *)

Record CallbackEnv : Type := mkCallbackEnv {
  tokenPost : string -> Result jsval;     (** POST /oauth/token, by code *)
  userInfoGet : jsval -> Result jsval;    (** GET /v2/me, by access token *)
  guildCached : bool;                     (** [client.guilds.cache.get] *)
  memberFetch : string -> Result bool     (** [guild.members.fetch]: member or null *)
}.

Record AcceptEnv : Type := mkAcceptEnv {
  a_guildCached : bool;
  a_memberFetch : string -> Result bool;
  a_roleCached : bool;                    (** [guild.roles.cache.get] *)
  a_botMemberCached : bool;               (** [guild.members.cache.get(client.user.id)] *)
  roleAdd : Result unit;                  (** [member.roles.add(role)] *)
  dmSend : Result unit                    (** [member.send] *)
}.

(** [FortyTwoAPI.exchangeCodeForToken] (fortytwo-api.js, 17-51) *)
Definition exchangeCodeForToken (env : CallbackEnv) (code : string) : Result jsval :=
  match tokenPost env code with
  | Ok data => Ok data
  | Throw d => Throw ("Failed to exchange code for token: " ++ d)
  end.

(** [FortyTwoAPI.getUserInfo] (fortytwo-api.js, 58-87) *)
Definition getUserInfo (env : CallbackEnv) (accessToken : jsval) : Result jsval :=
  match userInfoGet env accessToken with
  | Ok data => Ok data
  | Throw d => Throw ("Failed to get user info: " ++ d)
  end.

(** ** [app.get('/auth/callback')] (index.js, 198-443) *)

(** Work left to an in-flight request after its first [await]. *)
Inductive Job : Type :=
| CbJob (state code : string) (verification : Verification)
| AcJob (state : string) (verification : Verification).

(** Lines 199-252: up to the first [await]. *)
Definition callback_start (q : Query) : M (Page + Job) :=
  match qtruthy (q_error q) with
  | Some e => ret (inl (PageCallbackError e))
  | None =>
    match qtruthy (q_code q), qtruthy (q_state q) with
    | Some code, Some state =>
        let* verification := reg_get state in
        match verification with
        | None => ret (inl PageInvalidState)
        | Some v => ret (inr (CbJob state code v))
        end
    | _, _ => ret (inl PageMissingParams)
    end
  end.

(** Lines 254-442: the [try] block and its [catch]. *)
Definition callback_finish (env : CallbackEnv) (state code : string)
    (verification : Verification) : M Page :=
  try_catch
    (let* tokenResponse := lift (exchangeCodeForToken env code) in
     let* access_token := lift (get_prop tokenResponse "access_token") in
     let* ud := lift (getUserInfo env access_token) in
     let* _ := lift (get_prop ud "login") in
     let* _ := lift (get_prop ud "displayname") in
     let* _ := lift (get_prop ud "email") in
     let* r := lift (validateStudentStatus ud) in
     let (ok, warnings) := r in
     emit_all warnings;;
     if negb ok then
       let* _ := lift (get_prop ud "staff?") in
       throw "User is not a valid 42 student or is staff"
     else
     if negb (guildCached env) then throw "Guild not found" else
     let* member := lift (memberFetch env (discordUserId verification)) in
     if negb member then throw "Member not found in guild" else
     reg_set state (mkVerification (discordUserId verification)
                      (discordUsername verification) (timestamp verification)
                      ud (Some rules_pending));;
     ret (PageRules state))
    (fun msg => reg_delete state;; ret (PageVerificationError msg)).

Definition run_job_cb (env : CallbackEnv) (j : Job) : M Page :=
  match j with
  | CbJob state code v => callback_finish env state code v
  | AcJob _ _ => throw "not a callback job"
  end.

(** The whole handler when no other request interleaves. *)
Definition callback (q : Query) (env : CallbackEnv) : M Page :=
  let* r := callback_start q in
  match r with
  | inl p => ret p
  | inr (CbJob state code v) => callback_finish env state code v
  | inr (AcJob _ _) => throw "not a callback job"
  end.

(** ** [app.get('/auth/rules/accept')] (index.js, 446-619) *)

(** Lines 447-484: up to the first [await]; the debug call of line 481
    reads [verification.userData.login] outside the [try]. *)
Definition accept_start (q : Query) : M (Page + Job) :=
  match qtruthy (q_state q) with
  | None => ret (inl PageMissingState)
  | Some state =>
      let* verification := reg_get state in
      match verification with
      | Some v =>
          if is_rules_pending v then
            let* _ := lift (get_prop (userData v) "login") in
            let* _ := lift (get_prop (userData v) "displayname") in
            ret (inr (AcJob state v))
          else ret (inl PageRulesInvalid)
      | None => ret (inl PageRulesInvalid)
      end
  end.

(** Lines 486-618. *)
Definition accept_finish (env : AcceptEnv) (state : string)
    (verification : Verification) : M Page :=
  let uid := discordUserId verification in
  try_catch
    (if negb (a_guildCached env) then throw "Guild not found" else
     let* member := lift (a_memberFetch env uid) in
     if negb member then throw "Member not found in guild" else
     if negb (a_roleCached env) then throw "42 role not found" else
     if negb (a_botMemberCached env)
     then throw "Cannot read properties of undefined (reading 'roles')" else
     try_catch (emit (EGrant uid);; lift (roleAdd env))
       (fun roleError => throw ("Failed to assign role: " ++ roleError));;
     (* createSuccessEmbed reads userData.login and userData.displayname *)
     let* _ := lift (get_prop (userData verification) "login") in
     let* _ := lift (get_prop (userData verification) "displayname") in
     try_catch (emit (ESuccessDM uid);; lift (dmSend env))
       (fun _ => ret tt);;
     reg_delete state;;
     ret PageSuccess)
    (fun msg => reg_delete state;; ret (PageVerificationError msg)).

Definition accept (q : Query) (env : AcceptEnv) : M Page :=
  let* r := accept_start q in
  match r with
  | inl p => ret p
  | inr (AcJob state v) => accept_finish env state v
  | inr (CbJob _ _ _) => throw "not an accept job"
  end.

(** ** [app.get('/auth/rules/decline')] (index.js, 622-707): no [await]. *)
Definition decline (q : Query) : M Page :=
  match qtruthy (q_state q) with
  | None => ret PageMissingState
  | Some state =>
      let* verification := reg_get state in
      match verification with
      | Some v =>
          if is_rules_pending v then
            let* _ := lift (get_prop (userData v) "login") in
            let* _ := lift (get_prop (userData v) "displayname") in
            reg_delete state;;
            ret PageDeclined
          else ret PageRulesInvalid
      | None => ret PageRulesInvalid
      end
  end.

(** ** [client.on(Events.GuildMemberAdd)] (index.js, 118-195)

    [token] is the value drawn by [generateState()] (32 random bytes in
    hex). *)

Record JoinEnv : Type := mkJoinEnv {
  welcomeSend : Result unit;              (** [member.send] *)
  systemChannel : bool;                   (** [guild.systemChannel] is set *)
  publicSend : Result unit                (** [systemChannel.send] *)
}.

Definition onGuildMemberAdd (inGuild : bool) (uid tag : string) (hasRole : bool)
    (token : string) (now : Z) (env : JoinEnv) : M unit :=
  if negb inGuild then ret tt else
  if hasRole then ret tt else
  reg_set token (mkVerification uid tag now JUndefined None);;
  try_catch (emit (EWelcomeDM uid);; lift (welcomeSend env))
    (fun _ =>
       if systemChannel env then emit (EPublicNotice uid);; lift (publicSend env)
       else ret tt).

(** ** [cleanupExpiredVerifications] (fortytwo-api.js, 462-485)

    The [for ... of pendingVerifications.entries()] loop deletes only the
    entry it is visiting, so it visits exactly the entries present when it
    starts. *)

Fixpoint sweep_entries (now maxAge : Z) (es : Reg) : M unit :=
  match es with
  | [] => ret tt
  | (state, verification) :: es' =>
      (if now - timestamp verification >? maxAge then reg_delete state
       else ret tt);;
      sweep_entries now maxAge es'
  end.

Definition cleanupExpiredVerifications (now maxAge : Z) : M unit :=
  let* entries := get_reg in
  sweep_entries now maxAge entries.

(** [maxAge = 10 * 60 * 1000], the default used by the 5-minute interval
    (index.js, 105-112). *)
Definition default_maxAge : Z := 10 * 60 * 1000.

(** ** The process: registry, trace and in-flight requests *)

Record Sys : Type := mkSys { st : St; inflight : list Job }.

Definition sys_init : Sys := mkSys (mkSt [] []) [].

Inductive Action : Type :=
| AJoin (inGuild : bool) (uid tag : string) (hasRole : bool) (token : string)
        (now : Z) (env : JoinEnv)
| ACallback (q : Query)                   (** request reaches its first await *)
| AAccept (q : Query)
| ADecline (q : Query)
| ASweep (now : Z)                        (** the interval fires *)
| AResumeCb (i : nat) (env : CallbackEnv) (** in-flight request [i] completes *)
| AResumeAc (i : nat) (env : AcceptEnv).

Inductive Response : Type :=
| RPage (p : Page)
| RNone
| RUnhandled (msg : string).

Definition to_response (r : Result Page) : Response :=
  match r with Ok p => RPage p | Throw e => RUnhandled e end.

Fixpoint remove_nth {A} (i : nat) (l : list A) : list A :=
  match i, l with
  | _, [] => []
  | O, _ :: l' => l'
  | S i', x :: l' => x :: remove_nth i' l'
  end.

Definition start_request (s : Sys) (r : Result (Page + Job) * St) : Sys * Response :=
  match r with
  | (Ok (inl p), st') => (mkSys st' (inflight s), RPage p)
  | (Ok (inr j), st') => (mkSys st' (inflight s ++ [j]), RNone)
  | (Throw e, st') => (mkSys st' (inflight s), RUnhandled e)
  end.

Definition sys_step (s : Sys) (a : Action) : Sys * Response :=
  match a with
  | AJoin g uid tag hr token now env =>
      let (_, st') := onGuildMemberAdd g uid tag hr token now env (st s) in
      (mkSys st' (inflight s), RNone)
  | ACallback q => start_request s (callback_start q (st s))
  | AAccept q => start_request s (accept_start q (st s))
  | ADecline q =>
      let (r, st') := decline q (st s) in (mkSys st' (inflight s), to_response r)
  | ASweep now =>
      let (_, st') := cleanupExpiredVerifications now default_maxAge (st s) in
      (mkSys st' (inflight s), RNone)
  | AResumeCb i env =>
      match nth_error (inflight s) i with
      | Some (CbJob state code v) =>
          let (r, st') := callback_finish env state code v (st s) in
          (mkSys st' (remove_nth i (inflight s)), to_response r)
      | _ => (s, RNone)
      end
  | AResumeAc i env =>
      match nth_error (inflight s) i with
      | Some (AcJob state v) =>
          let (r, st') := accept_finish env state v (st s) in
          (mkSys st' (remove_nth i (inflight s)), to_response r)
      | _ => (s, RNone)
      end
  end.

Fixpoint run (s : Sys) (acts : list Action) : Sys :=
  match acts with
  | [] => s
  | a :: acts' => run (fst (sys_step s a)) acts'
  end.

Inductive reachable : Sys -> Prop :=
| reach_init : reachable sys_init
| reach_step s a : reachable s -> reachable (fst (sys_step s a)).

(** ** Concrete inputs *)

Definition student : jsval :=
  JObj [("login", JStr "ana"); ("email", JStr "ana@student.42.fr");
        ("staff?", JBool false); ("cursus_users", JArr [JObj [("level", JNum 3)]]);
        ("campus", JArr [JObj [("name", JStr "Paris")]]); ("active?", JBool true)].

Definition student2 : jsval :=
  JObj [("login", JStr "bo"); ("email", JStr "bo@student.42.fr");
        ("staff?", JBool false); ("cursus_users", JArr [JObj []]);
        ("campus", JArr [JObj []]); ("pool_year", JStr "2024")].

Definition staff_member : jsval :=
  JObj [("login", JStr "root"); ("email", JStr "root@42.fr");
        ("staff?", JBool true); ("cursus_users", JArr [JObj []]);
        ("campus", JArr [JObj []])].

(** The 42 API answers every call; [ud] is what [/v2/me] returns. *)
Definition env_ok (ud : jsval) : CallbackEnv :=
  mkCallbackEnv (fun _ => Ok (JObj [("access_token", JStr "tok")]))
                (fun _ => Ok ud) true (fun _ => Ok true).

Definition env_bad_code : CallbackEnv :=
  mkCallbackEnv (fun _ => Throw "The provided authorization grant is invalid")
                (fun _ => Ok student) true (fun _ => Ok true).

Definition accept_env_ok : AcceptEnv :=
  mkAcceptEnv true (fun _ => Ok true) true true (Ok tt) (Ok tt).

Definition join_env_ok : JoinEnv := mkJoinEnv (Ok tt) true (Ok tt).

Definition tok : string := "9f2c".

Definition q_cb (code state : string) : Query := mkQuery (Some code) (Some state) None.
Definition q_st (state : string) : Query := mkQuery None (Some state) None.

(** ** Auxiliary definitions used by the proofs and the witnesses *)

(** The verdict computed by the code, as one boolean. *)
Definition length_is_zero (c : jsval) : bool := strict_eq (prop c "length") (JNum 0).

Definition eligible_code (v : jsval) : bool :=
  truthy v && truthy (prop v "login") && truthy (prop v "email")
  && negb (truthy (prop v "staff?"))
  && truthy (prop v "cursus_users") && negb (length_is_zero (prop v "cursus_users"))
  && truthy (prop v "campus") && negb (length_is_zero (prop v "campus"))
  && negb (strict_eq (prop v "active?") (JBool false)).

Definition expired (now maxAge : Z) (v : Verification) : bool :=
  now - timestamp v >? maxAge.

Definition expired_key (now maxAge : Z) (es : Reg) (k : string) : bool :=
  existsb (fun e => String.eqb k (fst e) && expired now maxAge (snd e)) es.

(** The record the callback stores once the identity is confirmed. *)
Definition with_claims (v : Verification) (ud : jsval) : Verification :=
  mkVerification (discordUserId v) (discordUsername v) (timestamp v) ud
                 (Some rules_pending).

(** The identity part of the callback succeeds: token exchange, claims
    fetch and eligibility. *)
Definition identity_ok (env : CallbackEnv) (code : string) (ud : jsval) : Prop :=
  exists tr at_, exchangeCodeForToken env code = Ok tr
    /\ get_prop tr "access_token" = Ok at_
    /\ getUserInfo env at_ = Ok ud
    /\ verdict ud = Some true.

Definition only_warnings (tr : list Effect) : Prop :=
  forall e, In e tr -> exists w, e = EWarn w.

(** Lookups that precede the grant in the accept handler. *)
Definition accept_lookups_ok (env : AcceptEnv) (uid : string) : Prop :=
  a_guildCached env = true /\ a_memberFetch env uid = Ok true
  /\ a_roleCached env = true /\ a_botMemberCached env = true.

Definition after (s : Sys) (a : Action) : Reg := reg (st (fst (sys_step s a))).

(** Records awaiting consent carry a non-nullish [userData]. *)
Definition rp_ok (m : Reg) : Prop :=
  forall k v, map_get k m = Some v -> is_rules_pending v = true ->
              truthy (userData v) = true.

Definition grant_free (tr : list Effect) : Prop := forall uid, ~ In (EGrant uid) tr.

Definition identity_failure_message (m : string) : Prop :=
  (exists d, m = "Failed to exchange code for token: " ++ d)
  \/ (exists d, m = "Failed to get user info: " ++ d)
  \/ (exists k, m = "Cannot read properties of undefined (reading '" ++ k ++ "')")
  \/ (exists k, m = "Cannot read properties of null (reading '" ++ k ++ "')")
  \/ m = "User is not a valid 42 student or is staff".

Definition job_token (j : Job) : string :=
  match j with CbJob t _ _ => t | AcJob t _ => t end.

(** An action that does not draw [t] as a fresh token. *)
Definition fresh_for (t : string) (a : Action) : Prop :=
  match a with AJoin _ _ _ _ tk _ _ => tk <> t | _ => True end.

(** A member joins with token [tok]; two callbacks for [tok] reach their
    first [await]; the second fails its token exchange and deletes the
    record. *)
Definition replay_prefix : list Action :=
  [AJoin true "u1" "ana#1" false tok 0 join_env_ok;
   ACallback (q_cb "c1" tok); ACallback (q_cb "c2" tok);
   AResumeCb 1 env_bad_code].

Definition replay_dead : Sys := run sys_init replay_prefix.

(** The first callback then completes, and the member accepts. *)
Definition replay_revived : Sys :=
  run replay_dead [AResumeCb 0 (env_ok student); AAccept (q_st tok)].

(** A member joins with token [tok]; two callbacks for [tok] reach their
    first [await]; the first completes, the member accepts and is granted
    the role, which deletes the record. *)
Definition accepted_once : Sys :=
  run sys_init
    [AJoin true "u1" "ana#1" false tok 0 join_env_ok;
     ACallback (q_cb "c1" tok); ACallback (q_cb "c2" tok);
     AResumeCb 0 (env_ok student); AAccept (q_st tok); AResumeAc 1 accept_env_ok].

(** The second callback then completes, and the member accepts again. *)
Definition accepted_twice : Sys :=
  run accepted_once [AResumeCb 0 (env_ok student); AAccept (q_st tok)].

Definition v0 : Verification := mkVerification "u1" "ana#1" 0 JUndefined None.

Definition s_one : St := mkSt [(tok, v0)] [].

Definition pending_run : list Action :=
  [AJoin true "u1" "ana#1" false tok 0 join_env_ok;
   ACallback (q_cb "c1" tok); AResumeCb 0 (env_ok student)].

Definition sys_pending : Sys := run sys_init pending_run.

Definition v_pending : Verification :=
  mkVerification "u1" "ana#1" 0 student (Some rules_pending).

Definition accept_env_role_fail : AcceptEnv :=
  mkAcceptEnv true (fun _ => Ok true) true true (Throw "Missing Permissions") (Ok tt).

Definition sys_declined : Sys := run sys_pending [ADecline (q_st tok)].

(** ** Helpers of the 42 API client (fortytwo-api.js, 233-285 and 492-521) *)

(** [v[0]]. *)
Definition get_elem0 (v : jsval) : Result jsval :=
  match v with
  | JUndefined => Throw "Cannot read properties of undefined (reading '0')"
  | JNull => Throw "Cannot read properties of null (reading '0')"
  | JArr l => Ok (match l with x :: _ => x | [] => JUndefined end)
  | JStr s => Ok (match s with String c _ => JStr (String c EmptyString) | EmptyString => JUndefined end)
  | JObj fs => Ok (own_prop "0" fs)
  | JBool _ | JNum _ => Ok JUndefined
  end.

Definition getPrimaryCampus (userData : jsval) : Result jsval :=
  let? campus := get_prop userData "campus" in
  if negb (truthy campus) then Ok JNull else
  let? campus' := get_prop userData "campus" in
  let? len := get_prop campus' "length" in
  if strict_eq len (JNum 0) then Ok JNull else
  let? campus'' := get_prop userData "campus" in
  let? first := get_elem0 campus'' in
  get_prop first "name".

Definition getPrimaryCursus (userData : jsval) : Result jsval :=
  let? cu := get_prop userData "cursus_users" in
  if negb (truthy cu) then Ok JNull else
  let? cu' := get_prop userData "cursus_users" in
  let? len := get_prop cu' "length" in
  if strict_eq len (JNum 0) then Ok JNull else
  let? cu'' := get_prop userData "cursus_users" in
  let? first := get_elem0 cu'' in
  let? cursus := get_prop first "cursus" in
  get_prop cursus "name".

Definition getCurrentLevel (userData : jsval) : Result jsval :=
  let? cu := get_prop userData "cursus_users" in
  if negb (truthy cu) then Ok JNull else
  let? cu' := get_prop userData "cursus_users" in
  let? len := get_prop cu' "length" in
  if strict_eq len (JNum 0) then Ok JNull else
  let? cu'' := get_prop userData "cursus_users" in
  let? first := get_elem0 cu'' in
  get_prop first "level".

(** [a || b] *)
Definition js_or (a b : jsval) : jsval := if truthy a then a else b.

Definition createUserSummary (userData : jsval) : Result jsval :=
  let? login := get_prop userData "login" in
  let? displayName := get_prop userData "displayname" in
  let? email := get_prop userData "email" in
  let? campus := getPrimaryCampus userData in
  let? cursus := getPrimaryCursus userData in
  let? level := getCurrentLevel userData in
  let? poolYear := get_prop userData "pool_year" in
  let? poolMonth := get_prop userData "pool_month" in
  let? correctionPoints := get_prop userData "correction_point" in
  let? wallet := get_prop userData "wallet" in
  let? staff := get_prop userData "staff?" in
  let? imageUrl := get_prop userData "image_url" in
  let? location := get_prop userData "location" in
  Ok (JObj [("login", login); ("displayName", displayName); ("email", email);
            ("campus", campus); ("cursus", cursus); ("level", level);
            ("poolYear", poolYear); ("poolMonth", poolMonth);
            ("correctionPoints", correctionPoints); ("wallet", wallet);
            ("isStaff", js_or staff (JBool false)); ("imageUrl", imageUrl);
            ("location", location)]).

Definition validate42User (userData : jsval) : Result bool :=
  if negb (truthy userData) then Ok false else
  let? login := get_prop userData "login" in
  if negb (truthy login) then Ok false else
  let? email := get_prop userData "email" in
  if negb (truthy email) then Ok false else
  let? cu := get_prop userData "cursus_users" in
  if negb (truthy cu) then
    let? _ := get_prop userData "login" in Ok false
  else
  let? cu' := get_prop userData "cursus_users" in
  let? len := get_prop cu' "length" in
  if strict_eq len (JNum 0) then
    let? _ := get_prop userData "login" in Ok false
  else
  let? _ := get_prop userData "login" in
  Ok true.

Definition nullish (v : jsval) : bool :=
  match v with JUndefined | JNull => true | _ => false end.

Definition elem0 (v : jsval) : jsval :=
  match get_elem0 v with Ok w => w | Throw _ => JUndefined end.

(** The first element of [v] is read: [v] is truthy and [v.length] is not [0]. *)
Definition reads_first (v : jsval) : bool :=
  truthy v && negb (strict_eq (prop v "length") (JNum 0)).

Definition summary_throws (v : jsval) : bool :=
  nullish v
  || (reads_first (prop v "campus") && nullish (elem0 (prop v "campus")))
  || (reads_first (prop v "cursus_users")
      && (nullish (elem0 (prop v "cursus_users"))
          || nullish (prop (elem0 (prop v "cursus_users")) "cursus"))).

Definition validate42_code (v : jsval) : bool :=
  truthy v && truthy (prop v "login") && truthy (prop v "email")
  && truthy (prop v "cursus_users") && negb (length_is_zero (prop v "cursus_users")).

(** ** Slash commands (commands.js) *)

(** [String(v)] for the values [toString] is called on. *)
Fixpoint js_toString (v : jsval) : string :=
  match v with
  | JUndefined => "undefined"
  | JNull => "null"
  | JBool b => if b then "true" else "false"
  | JNum z => NilZero.string_of_int (Z.to_int z)
  | JStr s => s
  | JArr l =>
      (fix go (l : list jsval) : string :=
         let el x := match x with JUndefined | JNull => "" | _ => js_toString x end in
         match l with
         | [] => ""
         | [x] => el x
         | x :: l' => el x ++ "," ++ go l'
         end) l
  | JObj _ => "[object Object]"
  end.

Inductive CmdReply : Type :=
| RAlreadyVerified (tag : string)              (** commands.js 197-200 *)
| RNotStudent                                  (** 216-219 *)
| RVerified (tag : string) (campus level : jsval) (** 233-245 *)
| RAddFailed (tag : string)                    (** 274-277 *)
| RVerifyError (msg : string)                  (** 286-289 *)
| RNotVerified (tag : string)                  (** 339-342 *)
| RRemoved (tag : string)                      (** 349-356 *)
| RRemoveFailed (tag : string)                 (** 372-375 *)
| RUnverifyError (tag msg : string).           (** 380-383 *)

Inductive CEffect : Type :=
| CDefer                       (** [interaction.deferReply] *)
| CWarn (w : Warning)          (** [console.warn] *)
| CGrant (uid : string)        (** [member.roles.add(role)] is called *)
| CRevoke (uid : string)       (** [member.roles.remove(role)] is called *)
| CEdit (r : CmdReply)         (** [interaction.editReply] *)
| CDM (uid : string).          (** [user.send] resolved *)

Definition C (A : Type) : Type := list CEffect -> Result A * list CEffect.

Definition cret {A} (a : A) : C A := fun t => (Ok a, t).

Definition cbind {A B} (m : C A) (k : A -> C B) : C B :=
  fun t => match m t with
           | (Ok a, t') => k a t'
           | (Throw e, t') => (Throw e, t')
           end.

Notation "'let#' x ':=' m 'in' k" := (cbind m (fun x => k))
  (at level 200, x name, m at level 100, k at level 200).
Notation "m ;# k" := (cbind m (fun _ : unit => k))
  (at level 100, right associativity).

Definition cthrow {A} (msg : string) : C A := fun t => (Throw msg, t).

Definition clift {A} (r : Result A) : C A := fun t => (r, t).

Definition ctry {A} (m : C A) (h : string -> C A) : C A :=
  fun t => match m t with
           | (Throw e, t') => h e t'
           | r => r
           end.

Definition cemit (e : CEffect) : C unit := fun t => (Ok tt, (t ++ [e])%list).

Fixpoint cemit_warnings (ws : list Warning) : C unit :=
  match ws with
  | [] => cret tt
  | w :: ws' => cemit (CWarn w);# cemit_warnings ws'
  end.

(** The outcome of each external call one command makes (with [DEBUG]
    off, the [debug*] calls only evaluate their arguments).  Building an
    embed and [interaction.deferReply]/[editReply] are taken to succeed. *)
Record CommandEnv : Type := mkCommandEnv {
  c_memberFetch : string -> Result unit;  (** [interaction.guild.members.fetch(user.id)] *)
  c_hasRole : bool;                       (** [member.roles.cache.has(roleId)] *)
  c_userGet : string -> Result jsval;     (** [axios.get(url)] data, by login *)
  c_roleCached : bool;                    (** [member.guild.roles.cache.get(roleId)] *)
  c_roleAdd : Result unit;                (** [member.roles.add(role)] *)
  c_roleRemove : Result unit;             (** [member.roles.remove(role)] *)
  c_userSend : Result unit                (** [user.send] *)
}.

(** [interaction.options.getUser('user')] and [getString('login')]. *)
Record CmdArgs : Type := mkCmdArgs {
  target_id : string;
  target_tag : string;
  login_arg : string
}.

(** [FortyTwoAPI.getUserByLogin] (fortytwo-api.js, 93-118).  A failed
    request is [Throw d] with [d] the text the catch shows
    ([error.response?.data?.error_description || error.message]). *)
Definition getUserByLogin (env : CommandEnv) (login : string) : Result jsval :=
  match (let? data := c_userGet env login in
         let? _ := get_prop data "login" in
         let? _ := get_prop data "displayname" in
         Ok data) with
  | Ok data => Ok data
  | Throw d => Throw ("Failed to get user by login: " ++ d)
  end.

(** [add42Role] (fortytwo-api.js, 315-341). *)
Definition add42Role (env : CommandEnv) (uid : string) : C bool :=
  ctry (if negb (c_roleCached env) then cthrow "42 role not found" else
        cemit (CGrant uid);#
        let# _ := clift (c_roleAdd env) in
        cret true)
       (fun _ => cret false).

(** [remove42Role] (fortytwo-api.js, 349-375). *)
Definition remove42Role (env : CommandEnv) (uid : string) : C bool :=
  ctry (if negb (c_roleCached env) then cthrow "42 role not found" else
        cemit (CRevoke uid);#
        let# _ := clift (c_roleRemove env) in
        cret true)
       (fun _ => cret false).

(** [a?.b] *)
Definition opt_get_prop (v : jsval) (k : string) : Result jsval :=
  if nullish v then Ok JUndefined else get_prop v k.

(** [x?.toString() || 'Unknown'] *)
Definition level_field (x : jsval) : jsval :=
  if nullish x then JStr "Unknown" else js_or (JStr (js_toString x)) (JStr "Unknown").

(** [handleVerifyCommand] (commands.js, 175-291). *)
Definition handleVerifyCommand (env : CommandEnv) (a : CmdArgs) : C unit :=
  let# _ := clift (c_memberFetch env (target_id a)) in
  cemit CDefer;#
  ctry
    (if c_hasRole env then cemit (CEdit (RAlreadyVerified (target_tag a))) else
     let# userData := clift (getUserByLogin env (login_arg a)) in
     let# r := clift (validateStudentStatus userData) in
     let (ok, warnings) := r in
     cemit_warnings warnings;#
     if negb ok then
       let# _ := clift (get_prop userData "staff?") in
       let# cu := clift (get_prop userData "cursus_users") in
       let# _ := clift (opt_get_prop cu "length") in
       let# ca := clift (get_prop userData "campus") in
       let# _ := clift (opt_get_prop ca "length") in
       let# _ := clift (get_prop userData "active?") in
       cemit (CEdit RNotStudent)
     else
     let# success := add42Role env (target_id a) in
     if success then
       let# _ := clift (get_prop userData "login") in
       let# _ := clift (get_prop userData "displayname") in
       let# campus := clift (getPrimaryCampus userData) in
       let# level := clift (getCurrentLevel userData) in
       cemit (CEdit (RVerified (target_tag a) (js_or campus (JStr "Unknown"))
                               (level_field level)));#
       ctry (let# _ := clift (c_userSend env) in cemit (CDM (target_id a)))
            (fun _ => cret tt)
     else cemit (CEdit (RAddFailed (target_tag a))))
    (fun msg => cemit (CEdit (RVerifyError msg))).

(** [handleUnverifyCommand] (commands.js, 330-385). *)
Definition handleUnverifyCommand (env : CommandEnv) (a : CmdArgs) : C unit :=
  let# _ := clift (c_memberFetch env (target_id a)) in
  cemit CDefer;#
  ctry
    (if negb (c_hasRole env) then cemit (CEdit (RNotVerified (target_tag a))) else
     let# success := remove42Role env (target_id a) in
     if success then
       cemit (CEdit (RRemoved (target_tag a)));#
       ctry (let# _ := clift (c_userSend env) in cemit (CDM (target_id a)))
            (fun _ => cret tt)
     else cemit (CEdit (RRemoveFailed (target_tag a))))
    (fun msg => cemit (CEdit (RUnverifyError (target_tag a) msg))).

Definition succeeded {A} (r : Result A) : bool :=
  match r with Ok _ => true | Throw _ => false end.

(** ** [maskSensitiveData] (debug.js, 5-30) *)

(** Induction on values, through arrays and objects. *)
Section jsval_nested_ind.
Variable P : jsval -> Prop.
Hypothesis P_undef : P JUndefined.
Hypothesis P_null : P JNull.
Hypothesis P_bool : forall b, P (JBool b).
Hypothesis P_num : forall n, P (JNum n).
Hypothesis P_str : forall s, P (JStr s).
Hypothesis P_arr : forall l, Forall P l -> P (JArr l).
Hypothesis P_obj : forall fs, Forall (fun kv => P (snd kv)) fs -> P (JObj fs).

Fixpoint jsval_nested_ind (v : jsval) : P v :=
  match v with
  | JUndefined => P_undef
  | JNull => P_null
  | JBool b => P_bool b
  | JNum n => P_num n
  | JStr s => P_str s
  | JArr l =>
      P_arr l ((fix go (l : list jsval) : Forall P l :=
                  match l with
                  | [] => Forall_nil P
                  | x :: r => Forall_cons x (jsval_nested_ind x) (go r)
                  end) l)
  | JObj fs =>
      P_obj fs ((fix go (fs : list (string * jsval)) : Forall (fun kv => P (snd kv)) fs :=
                   match fs with
                   | [] => Forall_nil _
                   | kv :: r => Forall_cons kv (jsval_nested_ind (snd kv)) (go r)
                   end) fs)
  end.
End jsval_nested_ind.
(** [s.includes(sub)] *)
Fixpoint includes (s sub : string) : bool :=
  String.prefix sub s || match s with EmptyString => false | String _ s' => includes s' sub end.

Definition MASKED : string := "***MASKED***".

Definition default_sensitiveKeys : list string :=
  ["token"; "secret"; "password"; "authorization"].

(** [typeof v === 'object' && v !== null] *)
Definition is_object (v : jsval) : bool :=
  match v with JArr _ | JObj _ => true | _ => false end.

(** The keys [Object.entries] gives for the indices of an array. *)
Definition index_key (i : nat) : string := NilEmpty.string_of_uint (Nat.to_uint i).

(** [o[k] = v] on an own data property: updated in place, or added last. *)
Fixpoint assign (k : string) (v : jsval) (fs : list (string * jsval)) : list (string * jsval) :=
  match fs with
  | [] => [(k, v)]
  | (k', v') :: fs' => if String.eqb k k' then (k', v) :: fs' else (k', v') :: assign k v fs'
  end.

(** [masked[key] = v] on a fresh [{}] or [[]]: ["__proto__"] goes to the
    inherited accessor, which never creates an own property. *)
Definition obj_assign (fs : list (string * jsval)) (k : string) (v : jsval) :
    list (string * jsval) :=
  if String.eqb k "__proto__" then fs else assign k v fs.

(** The URL rewrite of line 8: the global, case-insensitive regular
    expression whose group 1 is [?] or [&], one of the four words and [=],
    followed by the value (the characters up to the next [&]); each match
    becomes its group 1 followed by ["***MASKED***"].  Matches are found
    leftmost first, scanning from left to right. *)

Definition lower_ascii (c : ascii) : ascii :=
  let n := nat_of_ascii c in
  if (65 <=? n)%nat && (n <=? 90)%nat then ascii_of_nat (n + 32) else c.

(** Case-insensitive match of the lower-case word [w] at the head of [s]:
    the matched text and what follows it. *)
Fixpoint match_ci (w s : string) : option (string * string) :=
  match w with
  | EmptyString => Some (EmptyString, s)
  | String wc w' =>
      match s with
      | EmptyString => None
      | String c s' =>
          if Ascii.eqb (lower_ascii c) wc then
            match match_ci w' s' with
            | Some (m, r) => Some (String c m, r)
            | None => None
            end
          else None
      end
  end.

Definition url_words : list string := ["token"; "secret"; "password"; "authorization"].

(** Group 1 matched at [c :: rest], and the text after it. *)
Definition url_param_at (c : ascii) (rest : string) : option (string * string) :=
  if Ascii.eqb c "?" || Ascii.eqb c "&" then
    (fix alt (ws : list string) : option (string * string) :=
       match ws with
       | [] => None
       | w :: ws' =>
           match match_ci w rest with
           | Some (m, String e r) =>
               if Ascii.eqb e "=" then Some (String c (m ++ "="), r) else alt ws'
           | _ => alt ws'
           end
       end) url_words
  else None.

(** The value: what follows group 1, up to the next [&]. *)
Fixpoint skip_value (s : string) : string :=
  match s with
  | EmptyString => EmptyString
  | String c s' => if Ascii.eqb c "&" then s else skip_value s'
  end.

(** Each step consumes at least one character, so [String.length s] steps
    suffice. *)
Fixpoint url_mask_fuel (fuel : nat) (s : string) : string :=
  match fuel with
  | O => s
  | S fuel' =>
      match s with
      | EmptyString => EmptyString
      | String c rest =>
          match url_param_at c rest with
          | Some (g1, after) => g1 ++ MASKED ++ url_mask_fuel fuel' (skip_value after)
          | None => String c (url_mask_fuel fuel' rest)
          end
      end
  end.

Definition url_mask (s : string) : string := url_mask_fuel (String.length s) s.

Section Mask.

(** [String.prototype.toLowerCase] (full Unicode case mapping). *)
Variable toLowerCase : string -> string.

Definition key_sensitive (sensitiveKeys : list string) (key : string) : bool :=
  existsb (fun sensitiveKey => includes (toLowerCase key) (toLowerCase sensitiveKey))
          sensitiveKeys.

(** Lines 11-26 on an array or an object.  A field list is read as the
    object whose property [k] is its first [k] entry (as [own_prop] reads
    it); [Object.entries] lists these in order. *)
Fixpoint mask_object (sensitiveKeys : list string) (data : jsval) : jsval :=
  match data with
  | JArr l =>
      JArr ((fix go (l : list jsval) (i : nat) : list jsval :=
               match l with
               | [] => []
               | value :: l' =>
                   (if key_sensitive sensitiveKeys (index_key i) then JStr MASKED
                    else if is_object value then mask_object sensitiveKeys value
                    else value) :: go l' (S i)
               end) l O)
  | JObj fs =>
      JObj ((fix go (fs : list (string * jsval)) (seen : list string)
                    (masked : list (string * jsval)) : list (string * jsval) :=
               match fs with
               | [] => masked
               | (key, value) :: fs' =>
                   if existsb (String.eqb key) seen then go fs' seen masked
                   else
                     go fs' (key :: seen)
                        (obj_assign masked key
                           (if key_sensitive sensitiveKeys key then JStr MASKED
                            else if is_object value then mask_object sensitiveKeys value
                            else value))
               end) fs [] [])
  | _ => data
  end.

Definition maskSensitiveData (sensitiveKeys : list string) (data : jsval) : jsval :=
  match data with
  | JStr s => JStr (url_mask s)
  | JArr _ | JObj _ => mask_object sensitiveKeys data
  | _ => data
  end.

End Mask.
Section MaskProps.
Variable toLowerCase : string -> string.
Variable sensitiveKeys : list string.

(** No property of the result, at any depth, with a sensitive key holds
    anything but ["***MASKED***"]. *)
Inductive no_exposure : jsval -> Prop :=
| NE_leaf v : is_object v = false -> no_exposure v
| NE_arr l :
    (forall i x, nth_error l i = Some x ->
       key_sensitive toLowerCase sensitiveKeys (index_key i) = true -> x = JStr MASKED) ->
    (forall x, In x l -> no_exposure x) ->
    no_exposure (JArr l)
| NE_obj fs :
    (forall k x, In (k, x) fs ->
       key_sensitive toLowerCase sensitiveKeys k = true -> x = JStr MASKED) ->
    (forall k x, In (k, x) fs -> no_exposure x) ->
    no_exposure (JObj fs).

Definition entry_ok (kv : string * jsval) : Prop :=
  (key_sensitive toLowerCase sensitiveKeys (fst kv) = true -> snd kv = JStr MASKED)
  /\ no_exposure (snd kv).

Definition masked_entry (key : string) (value : jsval) : jsval :=
  if key_sensitive toLowerCase sensitiveKeys key then JStr MASKED
  else if is_object value then mask_object toLowerCase sensitiveKeys value
  else value.

End MaskProps.
Fixpoint lookup_first (k : string) (fs : list (string * jsval)) : option jsval :=
  match fs with
  | [] => None
  | (k', v) :: fs' => if String.eqb k k' then Some v else lookup_first k fs'
  end.

Fixpoint ascii_lower (s : string) : string :=
  match s with
  | EmptyString => EmptyString
  | String c s' => String (lower_ascii c) (ascii_lower s')
  end.

Fixpoint is_ascii (s : string) : bool :=
  match s with
  | EmptyString => true
  | String c s' => (nat_of_ascii c <? 128)%nat && is_ascii s'
  end.

(** The objects [exchangeCodeForToken] (fortytwo-api.js, 19-31) and
    [getUserInfo] (59-65) hand to [debugOAuth2Flow] and [debugRequest]. *)
Definition tokenUrl : string := "https://api.intra.42.fr/oauth/token".

Definition tokenBody (clientId clientSecret code redirectUri : string) : jsval :=
  JObj [("grant_type", JStr "authorization_code"); ("client_id", JStr clientId);
        ("client_secret", JStr clientSecret); ("code", JStr code);
        ("redirect_uri", JStr redirectUri)].

Definition tokenHeaders : jsval :=
  JObj [("Content-Type", JStr "application/x-www-form-urlencoded")].

Definition userInfoHeaders (accessToken : jsval) : jsval :=
  JObj [("Authorization", JStr ("Bearer " ++ js_toString accessToken))].

(** ** [generateState] (fortytwo-api.js, 527-532) *)

Definition hex_digit (n : nat) : ascii :=
  if (n <? 10)%nat then ascii_of_nat (48 + n) else ascii_of_nat (87 + n).

Definition byte_hex (b : byte) : string :=
  String (hex_digit (Byte.to_nat b / 16)) (String (hex_digit (Byte.to_nat b mod 16)) EmptyString).

(** [buffer.toString('hex')] *)
Fixpoint bytes_to_hex (bs : list byte) : string :=
  match bs with
  | [] => EmptyString
  | b :: bs' => byte_hex b ++ bytes_to_hex bs'
  end.

(** [crypto.randomBytes(32).toString('hex')], given the bytes drawn. *)
Definition generateState (randomBytes : list byte) : string := bytes_to_hex randomBytes.

Definition is_lower_hex (c : ascii) : bool :=
  let n := nat_of_ascii c in
  ((48 <=? n) && (n <=? 57) || (97 <=? n) && (n <=? 102))%nat.

Fixpoint string_forallb (f : ascii -> bool) (s : string) : bool :=
  match s with
  | EmptyString => true
  | String c s' => f c && string_forallb f s'
  end.

(** Decoding, [Buffer.from(s, 'hex')] on well-formed input. *)
Definition hex_value (c : ascii) : option nat :=
  let n := nat_of_ascii c in
  if ((48 <=? n) && (n <=? 57))%nat then Some (n - 48)%nat
  else if ((97 <=? n) && (n <=? 102))%nat then Some (n - 87)%nat
  else None.

Fixpoint hex_to_bytes (s : string) : option (list byte) :=
  match s with
  | EmptyString => Some []
  | String h (String l s') =>
      match hex_value h, hex_value l with
      | Some hi, Some lo =>
          match Byte.of_nat (16 * hi + lo)%nat, hex_to_bytes s' with
          | Some b, Some bs => Some (b :: bs)
          | _, _ => None
          end
      | _, _ => None
      end
  | String _ EmptyString => None
  end.

Definition byte_hex_check (b : byte) : bool :=
  match byte_hex b with
  | String h (String l EmptyString) =>
      match hex_value h, hex_value l with
      | Some hi, Some lo =>
          match Byte.of_nat (16 * hi + lo)%nat with
          | Some b' => Byte.eqb b b' && is_lower_hex h && is_lower_hex l
          | None => false
          end
      | _, _ => false
      end
  | _ => false
  end.

(** ** [createAuthUrl] (fortytwo-api.js, 541-559)

    [URLSearchParams] per the WHATWG URL standard.  Strings are the UTF-8
    bytes of (well-formed) JS strings. *)

Definition upper_hex_digit (n : nat) : ascii :=
  if (n <? 10)%nat then ascii_of_nat (48 + n) else ascii_of_nat (55 + n).

Definition is_alnum (c : ascii) : bool :=
  let n := nat_of_ascii c in
  ((48 <=? n) && (n <=? 57) || (65 <=? n) && (n <=? 90) || (97 <=? n) && (n <=? 122))%nat.

(** The application/x-www-form-urlencoded percent-encode set leaves ASCII
    alphanumerics and [*-._]; a space becomes [+]. *)
Definition urlencode_byte (c : ascii) : string :=
  if Ascii.eqb c " " then "+"
  else if is_alnum c || Ascii.eqb c "*" || Ascii.eqb c "-" || Ascii.eqb c "." || Ascii.eqb c "_"
  then String c EmptyString
  else String "%" (String (upper_hex_digit (nat_of_ascii c / 16))
                          (String (upper_hex_digit (nat_of_ascii c mod 16)) EmptyString)).

Fixpoint urlencode (s : string) : string :=
  match s with
  | EmptyString => EmptyString
  | String c s' => urlencode_byte c ++ urlencode s'
  end.

(** The application/x-www-form-urlencoded serializer. *)
Fixpoint urlencoded_serialize (l : list (string * string)) : string :=
  match l with
  | [] => EmptyString
  | [(n, v)] => urlencode n ++ "=" ++ urlencode v
  | (n, v) :: l' => urlencode n ++ "=" ++ urlencode v ++ "&" ++ urlencoded_serialize l'
  end.

(** [searchParams.set(name, value)]: the first pair named [name] takes the
    value and the others are removed; without one, the pair is appended. *)
Fixpoint set_first (name value : string) (l : list (string * string))
    : option (list (string * string)) :=
  match l with
  | [] => None
  | (n, v) :: l' =>
      if String.eqb n name
      then Some ((n, value) :: filter (fun p => negb (String.eqb (fst p) name)) l')
      else option_map (cons (n, v)) (set_first name value l')
  end.

Definition params_set (name value : string) (l : list (string * string)) :
    list (string * string) :=
  match set_first name value l with
  | Some l' => l'
  | None => (l ++ [(name, value)])%list
  end.

Definition authorizeUrl : string := "https://api.intra.42.fr/oauth/authorize".

(** [url.toString()] of [authorizeUrl] with the query list [l]: an empty
    serialization leaves the query null. *)
Definition href_with (l : list (string * string)) : string :=
  match urlencoded_serialize l with
  | EmptyString => authorizeUrl
  | q => authorizeUrl ++ "?" ++ q
  end.

(** [clientId] and [redirectUri] are [process.env] values ([undefined] when
    unset), converted to strings by [set]. *)
Definition createAuthUrl (clientId redirectUri state : jsval) : string :=
  let l := params_set "client_id" (js_toString clientId) [] in
  let l := params_set "redirect_uri" (js_toString redirectUri) l in
  let l := params_set "response_type" "code" l in
  let l := params_set "scope" "public" l in
  let l := params_set "state" (js_toString state) l in
  href_with l.

(** The application/x-www-form-urlencoded parser, for comparison: split on
    [&], skip empty pieces, split each at its first [=], read [+] as a space
    and percent-decode. *)
Fixpoint split_amp (s : string) : list string :=
  match s with
  | EmptyString => [EmptyString]
  | String c s' =>
      if Ascii.eqb c "&" then EmptyString :: split_amp s'
      else match split_amp s' with
           | [] => [String c EmptyString]
           | p :: ps => String c p :: ps
           end
  end.

Fixpoint split_eq (s : string) : option (string * string) :=
  match s with
  | EmptyString => None
  | String c s' =>
      if Ascii.eqb c "=" then Some (EmptyString, s')
      else match split_eq s' with
           | Some (n, v) => Some (String c n, v)
           | None => None
           end
  end.

Fixpoint plus_to_space (s : string) : string :=
  match s with
  | EmptyString => EmptyString
  | String c s' => String (if Ascii.eqb c "+" then " " else c) (plus_to_space s')
  end.

Definition hex_any (c : ascii) : option nat :=
  let n := nat_of_ascii c in
  if ((48 <=? n) && (n <=? 57))%nat then Some (n - 48)%nat
  else if ((65 <=? n) && (n <=? 70))%nat then Some (n - 55)%nat
  else if ((97 <=? n) && (n <=? 102))%nat then Some (n - 87)%nat
  else None.

Fixpoint percent_decode (s : string) : string :=
  match s with
  | EmptyString => EmptyString
  | String c t =>
      if Ascii.eqb c "%" then
        match t with
        | String h (String l r) =>
            match hex_any h, hex_any l with
            | Some hi, Some lo => String (ascii_of_nat (16 * hi + lo)) (percent_decode r)
            | _, _ => String c (percent_decode t)
            end
        | _ => String c (percent_decode t)
        end
      else String c (percent_decode t)
  end.

Definition form_decode (s : string) : string := percent_decode (plus_to_space s).

Definition urlencoded_parse (s : string) : list (string * string) :=
  flat_map (fun p =>
              match p with
              | EmptyString => []
              | _ => match split_eq p with
                     | Some (n, v) => [(form_decode n, form_decode v)]
                     | None => [(form_decode p, EmptyString)]
                     end
              end) (split_amp s).

Definition no_amp_eq (c : ascii) : bool := negb (Ascii.eqb c "&") && negb (Ascii.eqb c "=").

Definition urlencode_byte_check (c : ascii) : bool :=
  match plus_to_space (urlencode_byte c) with
  | String x EmptyString => Ascii.eqb x c && negb (Ascii.eqb c "%")
  | String p (String h (String l EmptyString)) =>
      Ascii.eqb p "%" &&
      match hex_any h, hex_any l with
      | Some hi, Some lo => Ascii.eqb (ascii_of_nat (16 * hi + lo)) c
      | _, _ => false
      end
  | _ => false
  end
  && string_forallb no_amp_eq (urlencode_byte c).

Definition url_piece (n v : string) : string := urlencode n ++ String "=" (urlencode v).

Definition lower_hex_plain_check (c : ascii) : bool :=
  implb (is_lower_hex c) (String.eqb (urlencode_byte c) (String c EmptyString)).

(** ** Concrete commands and payloads *)

Definition cmd_env (d : jsval) : CommandEnv :=
  mkCommandEnv (fun _ => Ok tt) false (fun _ => Ok d) true (Ok tt) (Ok tt) (Ok tt).

Definition cmd_args : CmdArgs := mkCmdArgs "4242" "ana#0001" "ana".

Definition campus_null : jsval :=
  JObj [("login", JStr "ana"); ("email", JStr "ana@student.42.fr");
        ("staff?", JBool false); ("cursus_users", JArr [JObj [("level", JNum 3)]]);
        ("campus", JArr [JNull]); ("active?", JBool true)].

(** * Proofs *)

(** ** Sanity checks of the embedding *)

Example validate_fixture :
  verdict (JObj [("login", JStr "ana"); ("email", JStr "a@42.fr");
                 ("staff?", JBool false); ("cursus_users", JArr [JObj []]);
                 ("campus", JArr [JObj []]); ("active?", JBool true);
                 ("pool_year", JStr "2023")]) = Some true.
Proof. reflexivity. Qed.

Example validate_staff :
  verdict (JObj [("login", JStr "ana"); ("email", JStr "a@42.fr");
                 ("staff?", JBool true); ("cursus_users", JArr [JObj []]);
                 ("campus", JArr [JObj []])]) = Some false.
Proof. reflexivity. Qed.

(** ** Registry lemmas *)

Lemma map_get_delete (k k' : string) (m : Reg) :
  map_get k (map_delete k' m) = if String.eqb k k' then None else map_get k m.
Proof.
  unfold map_delete.
  induction m as [|[k0 v0] m IH]; cbn [filter fst map_get].
  - destruct (String.eqb k k'); reflexivity.
  - destruct (String.eqb_spec k' k0) as [->|Hne]; cbn [negb map_get].
    + rewrite IH. destruct (String.eqb_spec k k0); reflexivity.
    + rewrite IH. destruct (String.eqb_spec k k0) as [->|]; [|reflexivity].
      destruct (String.eqb_spec k0 k') as [->|]; [congruence|reflexivity].
Qed.

Lemma map_get_delete_same (k : string) (m : Reg) : map_get k (map_delete k m) = None.
Proof. rewrite map_get_delete, String.eqb_refl. reflexivity. Qed.

Lemma map_get_set (k k' : string) (v : Verification) (m : Reg) :
  map_get k (map_set k' v m) = if String.eqb k k' then Some v else map_get k m.
Proof.
  induction m as [|[k0 v0] m IH]; cbn.
  - reflexivity.
  - destruct (String.eqb_spec k' k0) as [->|Hne]; cbn.
    + destruct (String.eqb k k0); reflexivity.
    + rewrite IH. destruct (String.eqb_spec k k0) as [->|]; auto.
      destruct (String.eqb_spec k0 k') as [->|]; [congruence|reflexivity].
Qed.

Lemma map_get_in (k : string) (v : Verification) (m : Reg) :
  map_get k m = Some v -> In (k, v) m.
Proof.
  induction m as [|[k0 v0] m IH]; cbn; [discriminate|].
  destruct (String.eqb_spec k k0) as [->|]; intros H; [left; congruence|auto].
Qed.

(** ** Lemmas on [validateStudentStatus] *)

Lemma get_prop_ok (v : jsval) (k : string) :
  truthy v = true -> get_prop v k = Ok (prop v k).
Proof. destruct v; cbn; try discriminate; reflexivity. Qed.

Ltac run_validate :=
  repeat (cbn [rbind negb] in *;
    match goal with
    | H : truthy ?x = true |- context [get_prop ?x ?k] =>
        rewrite (get_prop_ok x k H)
    | |- context [truthy ?x] =>
        let E := fresh "E" in destruct (truthy x) eqn:E
    | |- context [strict_eq ?x ?y] =>
        let E := fresh "E" in destruct (strict_eq x y) eqn:E
    end).

Lemma validate_result (v : jsval) :
  exists ws, validateStudentStatus v = Ok (eligible_code v, ws).
Proof.
  unfold eligible_code, length_is_zero.
  destruct (truthy v) eqn:Hv.
  - unfold validateStudentStatus. rewrite Hv.
    run_validate; eexists; reflexivity.
  - exists []. unfold validateStudentStatus. rewrite Hv. reflexivity.
Qed.

Lemma verdict_eligible_code (v : jsval) : verdict v = Some (eligible_code v).
Proof.
  unfold verdict. destruct (validate_result v) as [ws ->]. reflexivity.
Qed.

Lemma missing_or_empty_fails (c : jsval) :
  missing_or_empty_array c = true ->
  truthy c && negb (length_is_zero c) = false.
Proof. destruct c as [| | | | |[|]|]; cbn; try discriminate; reflexivity. Qed.

Lemma nonempty_array_passes (c : jsval) :
  nonempty_array c = true -> truthy c && negb (length_is_zero c) = true.
Proof.
  destruct c as [| | | | |[|x l]|]; cbn; try discriminate.
  intros _. unfold length_is_zero, prop; cbn.
  destruct (Z.of_nat (length l) + 1) eqn:E; [lia| |lia]; reflexivity.
Qed.

Lemma five_conditions_eligible (v : jsval) :
  five_conditions v = true -> eligible_code v = true.
Proof.
  unfold five_conditions, eligible_code.
  intros H. repeat rewrite andb_true_iff in H.
  destruct H as [[[[[[H1 H2] H3] H4] H5] H6] H7].
  rewrite H1, H2, H3, H4, H7.
  pose proof (nonempty_array_passes _ H5) as P5.
  pose proof (nonempty_array_passes _ H6) as P6.
  apply andb_true_iff in P5 as [-> ->]. apply andb_true_iff in P6 as [-> ->].
  reflexivity.
Qed.

Lemma eligible_code_true (v : jsval) :
  eligible_code v = true ->
  truthy v = true /\ truthy (prop v "login") = true /\ truthy (prop v "email") = true
  /\ truthy (prop v "staff?") = false
  /\ truthy (prop v "cursus_users") = true
  /\ strict_eq (prop (prop v "cursus_users") "length") (JNum 0) = false
  /\ truthy (prop v "campus") = true
  /\ strict_eq (prop (prop v "campus") "length") (JNum 0) = false
  /\ strict_eq (prop v "active?") (JBool false) = false.
Proof.
  unfold eligible_code, length_is_zero. intros H.
  repeat rewrite andb_true_iff in H. repeat rewrite negb_true_iff in H.
  tauto.
Qed.

Lemma validate_true_truthy (v : jsval) (ws : list Warning) :
  validateStudentStatus v = Ok (true, ws) -> truthy v = true.
Proof.
  unfold validateStudentStatus. destruct (truthy v); cbn; [reflexivity|discriminate].
Qed.

Lemma verdict_true_truthy (v : jsval) : verdict v = Some true -> truthy v = true.
Proof.
  rewrite verdict_eligible_code. intros H. injection H as H.
  apply eligible_code_true in H. tauto.
Qed.

(** ** Lemmas on the sweep *)

Lemma sweep_entries_spec (now maxAge : Z) (es : Reg) (s : St) :
  fst (sweep_entries now maxAge es s) = Ok tt
  /\ forall k, map_get k (reg (snd (sweep_entries now maxAge es s)))
       = if expired_key now maxAge es k then None else map_get k (reg s).
Proof.
  revert s. induction es as [|[k0 v0] es IH]; intros s.
  - split; [reflexivity|]. intros k. reflexivity.
  - cbn [sweep_entries]. unfold bind, expired_key. cbn [existsb fst snd].
    unfold expired at 1.
    destruct (now - timestamp v0 >? maxAge) eqn:E; cbn [reg_delete ret].
    + destruct (IH (mkSt (map_delete k0 (reg s)) (trace s ++ [ERegDelete k0])))
        as [H1 H2].
      split; [exact H1|]. intros k. rewrite H2. cbn [reg].
      rewrite map_get_delete. unfold expired_key.
      destruct (String.eqb k k0); cbn; [|reflexivity].
      destruct (existsb _ es); reflexivity.
    + destruct (IH s) as [H1 H2]. split; [exact H1|]. intros k.
      rewrite H2. rewrite andb_false_r. reflexivity.
Qed.

Lemma cleanup_spec (now maxAge : Z) (s : St) :
  fst (cleanupExpiredVerifications now maxAge s) = Ok tt
  /\ forall k, map_get k (reg (snd (cleanupExpiredVerifications now maxAge s)))
       = if expired_key now maxAge (reg s) k then None else map_get k (reg s).
Proof. apply sweep_entries_spec. Qed.

Lemma expired_key_in (now maxAge : Z) (m : Reg) (k : string) (v : Verification) :
  In (k, v) m -> expired now maxAge v = true -> expired_key now maxAge m k = true.
Proof.
  intros Hin He. unfold expired_key. apply existsb_exists.
  exists (k, v). split; [exact Hin|]. cbn. rewrite String.eqb_refl, He. reflexivity.
Qed.

Lemma expired_key_absent (now maxAge : Z) (m : Reg) (k : string) :
  ~ In k (map fst m) -> expired_key now maxAge m k = false.
Proof.
  induction m as [|[k0 v0] m IH]; cbn; intros H; [reflexivity|].
  unfold expired_key in *. cbn.
  destruct (String.eqb_spec k k0) as [->|]; [tauto|]. cbn. apply IH. tauto.
Qed.

Lemma expired_key_unique (now maxAge : Z) (m : Reg) (k : string) (v : Verification) :
  NoDup (map fst m) -> map_get k m = Some v ->
  expired_key now maxAge m k = expired now maxAge v.
Proof.
  induction m as [|[k0 v0] m IH]; cbn; [discriminate|].
  intros Hnd Hg. inversion Hnd as [|? ? Hnin Hnd']; subst.
  unfold expired_key in *. cbn.
  destruct (String.eqb_spec k k0) as [->|Hne].
  - injection Hg as <-. cbn.
    pose proof (expired_key_absent now maxAge m k0 Hnin) as A.
    unfold expired_key in A. rewrite A. apply orb_false_r.
  - cbn. apply IH; assumption.
Qed.

(** ** Lemmas on the handlers *)

Lemma emit_all_spec (ws : list Warning) (s : St) :
  emit_all ws s = (Ok tt, mkSt (reg s) (trace s ++ map EWarn ws)).
Proof.
  revert s. induction ws as [|w ws IH]; intros [m t]; cbn.
  - rewrite app_nil_r. reflexivity.
  - unfold bind, emit. cbn. rewrite IH. cbn. rewrite <- app_assoc. reflexivity.
Qed.

Ltac crunch :=
  repeat (unfold bind, lift, ret, throw, try_catch, reg_set, reg_delete, emit,
            reg_get, get_reg in *;
          cbn beta iota zeta in *;
          try rewrite emit_all_spec in *;
          cbn beta iota zeta in *;
          match goal with
          | |- context [match ?x with _ => _ end] =>
              lazymatch x with
              | emit_all _ _ => fail
              | context [match _ with _ => _ end] => fail
              | _ => let E := fresh "E" in destruct x eqn:E
              end
          end).

Lemma callback_finish_cases (env : CallbackEnv) (t code : string)
    (v : Verification) (s : St) :
  (exists ud ws, identity_ok env code ud
     /\ validateStudentStatus ud = Ok (true, ws)
     /\ guildCached env = true
     /\ memberFetch env (discordUserId v) = Ok true
     /\ callback_finish env t code v s
        = (Ok (PageRules t),
           mkSt (map_set t (with_claims v ud) (reg s))
                (trace s ++ map EWarn ws ++ [ERegSet t])))
  \/ (exists msg tr, only_warnings tr
     /\ callback_finish env t code v s
        = (Ok (PageVerificationError msg),
           mkSt (map_delete t (reg s)) (trace s ++ tr ++ [ERegDelete t]))).
Proof.
  destruct s as [m t0]. unfold callback_finish.
  crunch; cbn [reg trace] in *.
  all: first
    [ right; eexists;
      lazymatch goal with
      | |- context [map EWarn ?l] => exists (map EWarn l)
      | _ => exists []
      end;
      split;
      [ intros e He; first [ destruct He
                           | apply in_map_iff in He as [w [<- _]]; eexists; reflexivity ]
      | rewrite <- ?app_assoc; reflexivity ]
    | left;
      match goal with
      | H : validateStudentStatus ?u = Ok (?b, ?l), Hb : negb ?b = false |- _ =>
          destruct b; [|discriminate]; exists u, l
      end;
      repeat split;
      [ do 2 eexists; repeat split; try eassumption; unfold verdict;
        match goal with H : validateStudentStatus _ = _ |- _ => rewrite H end;
        reflexivity
      | assumption
      | apply negb_false_iff; assumption
      | match goal with
        | Hb : negb ?b = false |- Ok ?b = Ok true =>
            apply negb_false_iff in Hb; rewrite Hb; reflexivity
        end
      | unfold with_claims; rewrite <- app_assoc; reflexivity ] ].
Qed.

Lemma callback_start_spec (q : Query) (s : St) :
  snd (callback_start q s) = s /\ exists r, fst (callback_start q s) = Ok r.
Proof.
  unfold callback_start. crunch; split; try reflexivity; eexists; reflexivity.
Qed.

Lemma accept_start_spec (q : Query) (s : St) :
  snd (accept_start q s) = s.
Proof. unfold accept_start. crunch; reflexivity. Qed.

Lemma decline_reg (q : Query) (s : St) :
  reg (snd (decline q s)) = reg s
  \/ exists t, reg (snd (decline q s)) = map_delete t (reg s).
Proof.
  unfold decline. crunch; cbn [reg trace snd];
    first [left; reflexivity | right; eexists; reflexivity].
Qed.

Lemma onGuildMemberAdd_reg (g : bool) (uid tag : string) (hr : bool) (token : string)
    (now : Z) (env : JoinEnv) (s : St) :
  reg (snd (onGuildMemberAdd g uid tag hr token now env s)) = reg s
  \/ reg (snd (onGuildMemberAdd g uid tag hr token now env s))
     = map_set token (mkVerification uid tag now JUndefined None) (reg s).
Proof.
  unfold onGuildMemberAdd. crunch; cbn [reg trace snd];
    first [left; reflexivity | right; reflexivity].
Qed.

Lemma accept_finish_spec (env : AcceptEnv) (t : string) (v : Verification) (s : St) :
  reg (snd (accept_finish env t v s)) = map_delete t (reg s)
  /\ exists p, fst (accept_finish env t v s) = Ok p.
Proof.
  unfold accept_finish. crunch; cbn [reg trace fst snd];
    split; first [reflexivity | eexists; reflexivity].
Qed.

(** ** How one step of the process changes the registry *)

Lemma sys_step_reg (s : Sys) (a : Action) :
  after s a = reg (st s)
  \/ (exists t, after s a = map_delete t (reg (st s)))
  \/ (exists g uid tag hr tk now env,
        a = AJoin g uid tag hr tk now env
        /\ after s a = map_set tk (mkVerification uid tag now JUndefined None) (reg (st s)))
  \/ (exists i env t code v ud ws,
        a = AResumeCb i env /\ nth_error (inflight s) i = Some (CbJob t code v)
        /\ identity_ok env code ud /\ validateStudentStatus ud = Ok (true, ws)
        /\ guildCached env = true /\ memberFetch env (discordUserId v) = Ok true
        /\ after s a = map_set t (with_claims v ud) (reg (st s)))
  \/ (exists now, a = ASweep now
        /\ forall k, map_get k (after s a)
             = if expired_key now default_maxAge (reg (st s)) k then None
               else map_get k (reg (st s))).
Proof.
  unfold after. destruct a as [g uid tag hr tk now env|q|q|q|now|i env|i env]; cbn [sys_step].
  - destruct (onGuildMemberAdd g uid tag hr tk now env (st s)) as [r st'] eqn:E.
    pose proof (onGuildMemberAdd_reg g uid tag hr tk now env (st s)) as H.
    rewrite E in H. cbn [snd fst st] in *.
    destruct H as [H|H]; [left; exact H|].
    right; right; left. do 7 eexists. split; [reflexivity|exact H].
  - left. pose proof (callback_start_spec q (st s)) as [H _].
    destruct (callback_start q (st s)) as [[[p|j]|e] st'];
      cbn in H |- *; subst; reflexivity.
  - left. pose proof (accept_start_spec q (st s)) as H.
    destruct (accept_start q (st s)) as [[[p|j]|e] st'];
      cbn in H |- *; subst; reflexivity.
  - pose proof (decline_reg q (st s)) as H.
    destruct (decline q (st s)) as [r st'] eqn:E. cbn [snd fst st] in *.
    destruct H as [H|H]; [left; exact H | right; left; exact H].
  - pose proof (cleanup_spec now default_maxAge (st s)) as [_ H].
    destruct (cleanupExpiredVerifications now default_maxAge (st s)) as [r st'].
    cbn [snd fst st] in *. right; right; right; right. exists now. split; [reflexivity|exact H].
  - destruct (nth_error (inflight s) i) as [[t code v|t v]|] eqn:Hi; cbn [fst];
      try (left; reflexivity).
    destruct (callback_finish_cases env t code v (st s))
      as [(ud & ws & Hid & Hv & Hg & Hm & E)|(msg & tr & _ & E)];
      rewrite E; cbn [fst st reg].
    + right; right; right; left. exists i, env, t, code, v, ud, ws. tauto.
    + right; left. exists t. reflexivity.
  - destruct (nth_error (inflight s) i) as [[t code v|t v]|] eqn:Hi; cbn [fst];
      try (left; reflexivity).
    pose proof (accept_finish_spec env t v (st s)) as [H _].
    destruct (accept_finish env t v (st s)) as [r st']. cbn [snd fst st] in *.
    right; left. exists t. exact H.
Qed.

Lemma reachable_rp_ok (s : Sys) : reachable s -> rp_ok (reg (st s)).
Proof.
  induction 1 as [|s a Hr IH].
  - intros k v H. discriminate.
  - fold (after s a).
    destruct (sys_step_reg s a) as
      [H|[(t & H)|[(g & uid & tag & hr & tk & now & env & _ & H)
      |[(i & env & t & code & v & ud & ws & _ & _ & _ & Hv & _ & _ & H)|(now & _ & H)]]]];
      intros k w Hk Hp.
    + rewrite H in Hk. exact (IH k w Hk Hp).
    + rewrite H, map_get_delete in Hk. destruct (String.eqb k t); [discriminate|].
      exact (IH k w Hk Hp).
    + rewrite H, map_get_set in Hk. destruct (String.eqb k tk).
      * injection Hk as <-. discriminate.
      * exact (IH k w Hk Hp).
    + rewrite H, map_get_set in Hk. destruct (String.eqb k t).
      * injection Hk as <-. exact (validate_true_truthy _ _ Hv).
      * exact (IH k w Hk Hp).
    + rewrite H in Hk. destruct (expired_key _ _ _ k); [discriminate|].
      exact (IH k w Hk Hp).
Qed.

(** * Claims *)

(** ** C4 *)

(** C4: [validateStudentStatus] never throws; it returns false when the
    payload is falsy, lacks a (truthy) login or email, is flagged staff, has
    a missing or empty [cursus_users] or [campus] array, or has
    ['active?'] equal to [false]; it returns true when the five conditions
    of the spec hold. *)
Theorem validateStudentStatus_total_and_exact :
  (forall v, exists b ws, validateStudentStatus v = Ok (b, ws))
  /\ (forall v,
        truthy v = false \/ truthy (prop v "login") = false
        \/ truthy (prop v "email") = false \/ truthy (prop v "staff?") = true
        \/ missing_or_empty_array (prop v "cursus_users") = true
        \/ missing_or_empty_array (prop v "campus") = true
        \/ strict_eq (prop v "active?") (JBool false) = true ->
        verdict v = Some false)
  /\ (forall v, five_conditions v = true -> verdict v = Some true).
Proof.
  split; [|split].
  - intros v. destruct (validate_result v) as [ws H]. eauto.
  - intros v H. rewrite verdict_eligible_code.
    destruct (eligible_code v) eqn:E; [exfalso|reflexivity].
    pose proof (eligible_code_true v E) as (H1 & H2 & H3 & H4 & H5 & H6 & H7 & H8 & H9).
    destruct H as [H|[H|[H|[H|[H|[H|H]]]]]]; try congruence.
    + pose proof (missing_or_empty_fails _ H) as P. unfold length_is_zero in P.
      rewrite H5, H6 in P. discriminate.
    + pose proof (missing_or_empty_fails _ H) as P. unfold length_is_zero in P.
      rewrite H7, H8 in P. discriminate.
  - intros v H. rewrite verdict_eligible_code, (five_conditions_eligible v H).
    reflexivity.
Qed.

(** ** C10 *)

(** C10: the verdict does not depend on [pool_year] and [pool_month]: a
    payload meeting the five conditions is accepted with both fields
    absent (only a [console.warn] is emitted), and setting the two fields
    to any values never changes the verdict. *)
Theorem validateStudentStatus_ignores_pool :
  (forall v, five_conditions v = true ->
     truthy (prop v "pool_year") = false -> truthy (prop v "pool_month") = false ->
     validateStudentStatus v = Ok (true, [NoPoolYear (prop v "login")]))
  /\ (forall fs py pm,
        verdict (JObj (("pool_year", py) :: ("pool_month", pm) :: fs))
        = verdict (JObj fs)).
Proof.
  split.
  - intros v H Hy Hm.
    pose proof (five_conditions_eligible v H) as E.
    apply eligible_code_true in E as (H1 & H2 & H3 & H4 & H5 & H6 & H7 & H8 & H9).
    unfold validateStudentStatus. rewrite H1. cbn [negb].
    run_validate; try congruence; reflexivity.
  - intros fs py pm. rewrite !verdict_eligible_code. reflexivity.
Qed.

(** ** C7 *)

(** C7: the sweep removes every record older than [maxAge]; the interval
    sweeps with [maxAge] = 10 minutes; a record created at [T] survives a
    sweep run at [T + maxAge - eps] and is gone after a sweep run at
    [T + maxAge + eps] ([eps > 0], keys of a [Map] being unique). *)
Theorem cleanup_removes_expired :
  (forall now maxAge s k v,
     map_get k (reg s) = Some v -> now - timestamp v > maxAge ->
     map_get k (reg (snd (cleanupExpiredVerifications now maxAge s))) = None)
  /\ (forall maxAge s k v eps,
        NoDup (map fst (reg s)) -> map_get k (reg s) = Some v -> 0 < eps ->
        map_get k (reg (snd (cleanupExpiredVerifications
                               (timestamp v + maxAge - eps) maxAge s))) = Some v
        /\ map_get k (reg (snd (cleanupExpiredVerifications
                                  (timestamp v + maxAge + eps) maxAge s))) = None)
  /\ (forall sys now,
        sys_step sys (ASweep now)
        = (mkSys (snd (cleanupExpiredVerifications now (10 * 60 * 1000) (st sys)))
                 (inflight sys), RNone)).
Proof.
  split; [|split].
  - intros now maxAge s k v Hk Hage.
    destruct (cleanup_spec now maxAge s) as [_ H]. rewrite H.
    rewrite (expired_key_in now maxAge (reg s) k v (map_get_in _ _ _ Hk)).
    + reflexivity.
    + unfold expired. apply Z.gtb_lt. lia.
  - intros maxAge s k v eps Hnd Hk Heps. split.
    + destruct (cleanup_spec (timestamp v + maxAge - eps) maxAge s) as [_ H].
      rewrite H, (expired_key_unique _ _ _ _ _ Hnd Hk).
      unfold expired. replace (timestamp v + maxAge - eps - timestamp v >? maxAge)
        with false by (symmetry; rewrite Z.gtb_ltb; apply Z.ltb_ge; lia).
      exact Hk.
    + destruct (cleanup_spec (timestamp v + maxAge + eps) maxAge s) as [_ H].
      rewrite H, (expired_key_unique _ _ _ _ _ Hnd Hk).
      unfold expired. replace (timestamp v + maxAge + eps - timestamp v >? maxAge)
        with true by (symmetry; apply Z.gtb_lt; lia).
      reflexivity.
  - intros sys now. cbn [sys_step]. unfold default_maxAge.
    destruct (cleanupExpiredVerifications now (10 * 60 * 1000) (st sys)); reflexivity.
Qed.

(** ** C9 *)

(** C9: the sweep leaves every record whose age is at most [maxAge]
    present with the same contents; a record whose age is exactly [maxAge]
    is kept. *)
Theorem cleanup_keeps_fresh :
  forall now maxAge s k v,
    NoDup (map fst (reg s)) -> map_get k (reg s) = Some v ->
    now - timestamp v <= maxAge ->
    map_get k (reg (snd (cleanupExpiredVerifications now maxAge s))) = Some v
    /\ map_get k (reg (snd (cleanupExpiredVerifications
                              (timestamp v + maxAge) maxAge s))) = Some v.
Proof.
  intros now maxAge s k v Hnd Hk Hage. split.
  - destruct (cleanup_spec now maxAge s) as [_ H].
    rewrite H, (expired_key_unique _ _ _ _ _ Hnd Hk).
    unfold expired. replace (now - timestamp v >? maxAge)
      with false by (symmetry; rewrite Z.gtb_ltb; apply Z.ltb_ge; lia).
    exact Hk.
  - destruct (cleanup_spec (timestamp v + maxAge) maxAge s) as [_ H].
    rewrite H, (expired_key_unique _ _ _ _ _ Hnd Hk).
    unfold expired. replace (timestamp v + maxAge - timestamp v >? maxAge)
      with false by (symmetry; rewrite Z.gtb_ltb; apply Z.ltb_ge; lia).
    exact Hk.
Qed.

(** ** C6 *)

Lemma qtruthy_some (x : string) : x <> "" -> qtruthy (Some x) = Some x.
Proof.
  intros H. cbn. destruct (String.eqb_spec x ""); [contradiction|reflexivity].
Qed.

Lemma callback_live (env : CallbackEnv) (code t : string) (v : Verification) (s : St) :
  code <> "" -> t <> "" -> map_get t (reg s) = Some v ->
  callback (q_cb code t) env s = callback_finish env t code v s.
Proof.
  intros Hc Ht Hk. unfold callback, callback_start, q_cb. cbn [q_error q_code q_state].
  rewrite (qtruthy_some code Hc), (qtruthy_some t Ht). cbn [qtruthy].
  unfold bind, reg_get, ret. cbn beta iota. rewrite Hk. destruct s. reflexivity.
Qed.

Lemma grant_free_app (a b : list Effect) :
  grant_free a -> grant_free b -> grant_free (a ++ b).
Proof.
  intros Ha Hb uid H. apply in_app_or in H as [H|H]; [exact (Ha uid H)|exact (Hb uid H)].
Qed.

Lemma grant_free_warnings (tr : list Effect) : only_warnings tr -> grant_free tr.
Proof. intros H uid Hin. destruct (H _ Hin) as [w Hw]. discriminate. Qed.

Lemma grant_free_map_warn (ws : list Warning) : grant_free (map EWarn ws).
Proof.
  apply grant_free_warnings. intros e He.
  apply in_map_iff in He as [w [<- _]]. eexists; reflexivity.
Qed.

Lemma grant_free_reg (k : string) : grant_free [ERegSet k] /\ grant_free [ERegDelete k].
Proof. split; intros uid [H|[]]; discriminate. Qed.

Lemma callback_finish_grant_free (env : CallbackEnv) (t code : string)
    (v : Verification) (s : St) :
  exists tr, trace (snd (callback_finish env t code v s)) = (trace s ++ tr)%list
             /\ grant_free tr.
Proof.
  destruct (callback_finish_cases env t code v s)
    as [(ud & ws & _ & _ & _ & _ & E)|(msg & tr & Hw & E)]; rewrite E; cbn [snd trace].
  - eexists; split; [reflexivity|].
    apply grant_free_app; [apply grant_free_map_warn|apply grant_free_reg].
  - eexists; split; [reflexivity|].
    apply grant_free_app; [apply grant_free_warnings, Hw|apply grant_free_reg].
Qed.

Lemma callback_grant_free (q : Query) (env : CallbackEnv) (s : St) :
  exists tr, trace (snd (callback q env s)) = (trace s ++ tr)%list /\ grant_free tr.
Proof.
  unfold callback, bind.
  pose proof (callback_start_spec q s) as [Hs [r Hr]].
  destruct (callback_start q s) as [r' s'] eqn:E. cbn [fst snd] in Hs, Hr. subst.
  destruct r as [p|[t code v|t v]]; cbn [snd ret throw].
  - exists []. rewrite app_nil_r. split; [reflexivity|intros uid []].
  - apply callback_finish_grant_free.
  - exists []. rewrite app_nil_r. split; [reflexivity|intros uid []].
Qed.

Lemma staff_ineligible (ud : jsval) :
  truthy (prop ud "staff?") = true -> verdict ud = Some false.
Proof.
  intros H. rewrite verdict_eligible_code.
  destruct (eligible_code ud) eqn:E; [|reflexivity].
  apply eligible_code_true in E. destruct E as (_ & _ & _ & E & _). congruence.
Qed.

(** C6: on a callback for a live record, when the token exchange, the
    access-token read, the claims fetch or the eligibility check fails, the
    record is deleted and a failure page is rendered; the callback never
    calls [member.roles.add]; a payload flagged staff is such a failure. *)
Theorem callback_failure_deletes_record :
  (forall q env s, exists tr,
     trace (snd (callback q env s)) = (trace s ++ tr)%list /\ grant_free tr)
  /\ (forall env code t v s,
        code <> "" -> t <> "" -> map_get t (reg s) = Some v ->
        ~ (exists ud, identity_ok env code ud) ->
        map_get t (reg (snd (callback (q_cb code t) env s))) = None
        /\ exists msg, fst (callback (q_cb code t) env s) = Ok (PageVerificationError msg))
  /\ (forall env code t v s ud,
        code <> "" -> t <> "" -> map_get t (reg s) = Some v ->
        (forall at_, getUserInfo env at_ = Ok ud) ->
        truthy (prop ud "staff?") = true ->
        ~ (exists ud', identity_ok env code ud')
        /\ map_get t (reg (snd (callback (q_cb code t) env s))) = None
        /\ exists msg, fst (callback (q_cb code t) env s) = Ok (PageVerificationError msg)).
Proof.
  assert (Hfail : forall env code t v s,
        code <> "" -> t <> "" -> map_get t (reg s) = Some v ->
        ~ (exists ud, identity_ok env code ud) ->
        map_get t (reg (snd (callback (q_cb code t) env s))) = None
        /\ exists msg, fst (callback (q_cb code t) env s) = Ok (PageVerificationError msg)).
  { intros env code t v s Hc Ht Hk Hno. rewrite (callback_live env code t v s Hc Ht Hk).
    destruct (callback_finish_cases env t code v s)
      as [(ud & ws & Hid & _ & _ & _ & E)|(msg & tr & _ & E)].
    - exfalso. apply Hno. exists ud. exact Hid.
    - rewrite E. cbn [fst snd reg]. split; [apply map_get_delete_same|eauto]. }
  split; [|split].
  - apply callback_grant_free.
  - exact Hfail.
  - intros env code t v s ud Hc Ht Hk Hu Hstaff.
    assert (Hno : ~ (exists ud', identity_ok env code ud')).
    { intros (ud' & tr & at_ & _ & _ & Hg & Hv). rewrite Hu in Hg.
      injection Hg as <-. rewrite staff_ineligible in Hv by exact Hstaff. discriminate. }
    split; [exact Hno|]. exact (Hfail env code t v s Hc Ht Hk Hno).
Qed.

(** ** C8 *)

Lemma grant_free_nil : grant_free [].
Proof. intros uid []. Qed.

(** C8: declining a record that awaits consent deletes it and renders the
    decline page, with no call other than the deletion; when the state is
    missing, unknown or not awaiting consent nothing changes; the decline
    handler never calls [member.roles.add]. *)
Theorem decline_deletes_without_grant :
  (forall sys t v, reachable sys -> t <> "" ->
     map_get t (reg (st sys)) = Some v -> is_rules_pending v = true ->
     decline (q_st t) (st sys)
     = (Ok PageDeclined,
        mkSt (map_delete t (reg (st sys))) (trace (st sys) ++ [ERegDelete t])))
  /\ (forall q s, qtruthy (q_state q) = None -> decline q s = (Ok PageMissingState, s))
  /\ (forall q s t, qtruthy (q_state q) = Some t ->
        (forall v, map_get t (reg s) = Some v -> is_rules_pending v = false) ->
        decline q s = (Ok PageRulesInvalid, s))
  /\ (forall q s, exists tr,
        trace (snd (decline q s)) = (trace s ++ tr)%list /\ grant_free tr).
Proof.
  split; [|split; [|split]].
  - intros sys t v Hr Ht Hk Hp.
    pose proof (reachable_rp_ok sys Hr t v Hk Hp) as Hu.
    unfold decline, q_st. cbn [q_state]. rewrite (qtruthy_some t Ht).
    unfold bind, reg_get, lift, reg_delete, ret. cbn beta iota.
    rewrite Hk, Hp, !(get_prop_ok _ _ Hu). reflexivity.
  - intros q s H. unfold decline. rewrite H. reflexivity.
  - intros q s t H Hnp. unfold decline. rewrite H.
    unfold bind, reg_get, ret. cbn beta iota.
    destruct (map_get t (reg s)) as [v|] eqn:E; [|reflexivity].
    rewrite (Hnp v eq_refl). reflexivity.
  - intros q s. unfold decline. crunch; cbn [snd trace];
      first [ exists []; rewrite app_nil_r; split; [reflexivity|apply grant_free_nil]
            | eexists; split; [reflexivity|apply grant_free_reg] ].
Qed.

(** ** C5 *)

Lemma get_prop_throw (v : jsval) (k m : string) :
  get_prop v k = Throw m -> identity_failure_message m.
Proof.
  unfold identity_failure_message.
  destruct v; cbn; try discriminate; intros H; injection H as <-.
  - right; right; left. eauto.
  - right; right; right; left. eauto.
Qed.

Lemma exchange_throw (env : CallbackEnv) (code m : string) :
  exchangeCodeForToken env code = Throw m -> identity_failure_message m.
Proof.
  unfold exchangeCodeForToken, identity_failure_message.
  destruct (tokenPost env code) as [|d]; [discriminate|].
  intros H. left. exists d. congruence.
Qed.

Lemma userinfo_throw (env : CallbackEnv) (a : jsval) (m : string) :
  getUserInfo env a = Throw m -> identity_failure_message m.
Proof.
  unfold getUserInfo, identity_failure_message.
  destruct (userInfoGet env a) as [|d]; [discriminate|].
  intros H. right; left. exists d. congruence.
Qed.

Lemma callback_identity_failure (env : CallbackEnv) (t code : string)
    (v : Verification) (s s' : St) (msg : string) :
  callback_finish env t code v s = (Ok (PageVerificationError msg), s') ->
  ~ (exists ud, identity_ok env code ud) ->
  identity_failure_message msg.
Proof.
  unfold callback_finish. crunch; intros H Hno; injection H; intros; subst;
    try solve [ eapply exchange_throw; eassumption
              | eapply userinfo_throw; eassumption
              | eapply get_prop_throw; eassumption
              | right; right; right; right; reflexivity
              | discriminate ].
  all: exfalso; apply Hno;
    match goal with H : validateStudentStatus ?u = _ |- _ => exists u end.
  all: destruct (validate_result a1) as [ws Hw]; try congruence.
  all: match goal with
       | H : validateStudentStatus _ = Ok (?b, _) |- _ =>
           rewrite Hw in H; injection H; intros; subst b
       end.
  all: unfold identity_ok, verdict; do 2 eexists;
    split; [eassumption|split; [eassumption|split; [eassumption|]]];
    rewrite Hw; destruct (eligible_code a1); [reflexivity|discriminate].
Qed.

Lemma identity_failure_not_grant (m e : string) :
  identity_failure_message m -> m <> "Failed to assign role: " ++ e.
Proof.
  intros [(d & ->)|[(d & ->)|[(k & ->)|[(k & ->)| ->]]]]; cbn; discriminate.
Qed.

Lemma accept_live (env : AcceptEnv) (t : string) (v : Verification) (s : St) :
  t <> "" -> map_get t (reg s) = Some v -> is_rules_pending v = true ->
  truthy (userData v) = true ->
  accept (q_st t) env s = accept_finish env t v s.
Proof.
  intros Ht Hk Hp Hu. unfold accept, accept_start, q_st. cbn [q_state].
  rewrite (qtruthy_some t Ht).
  unfold bind, reg_get, lift, ret. cbn beta iota.
  rewrite Hk, Hp, !(get_prop_ok _ _ Hu). destruct s. reflexivity.
Qed.

Lemma accept_finish_grant_failed (env : AcceptEnv) (t : string) (v : Verification)
    (s : St) (e : string) :
  accept_lookups_ok env (discordUserId v) -> roleAdd env = Throw e ->
  fst (accept_finish env t v s) = Ok (PageVerificationError ("Failed to assign role: " ++ e)).
Proof.
  intros (Hg & Hm & Hr & Hb) He. unfold accept_finish.
  unfold try_catch, bind, lift, throw, emit, ret.
  rewrite Hg, Hm, Hr, Hb, He. reflexivity.
Qed.

Lemma accept_finish_granted (env : AcceptEnv) (t : string) (v : Verification) (s : St) :
  accept_lookups_ok env (discordUserId v) -> roleAdd env = Ok tt ->
  truthy (userData v) = true ->
  accept_finish env t v s
  = (Ok PageSuccess,
     mkSt (map_delete t (reg s))
          (trace s ++ [EGrant (discordUserId v); ESuccessDM (discordUserId v);
                       ERegDelete t])).
Proof.
  intros (Hg & Hm & Hr & Hb) He Hu. unfold accept_finish.
  unfold try_catch, bind, lift, throw, emit, ret, reg_delete.
  rewrite Hg, Hm, Hr, Hb, He, !(get_prop_ok _ _ Hu). cbn beta iota.
  destruct (dmSend env); cbn; rewrite <- !app_assoc; reflexivity.
Qed.

(** C5: once the accept handler has finished with a token (whatever
    happened meanwhile), the token's record is absent; for a record awaiting
    consent the handler always answers; when [member.roles.add] fails it
    renders the failure page "Failed to assign role: ...", which differs
    from every page the callback renders when the identity step fails; when
    the grant succeeds it calls [member.send] for the success message before
    deleting the record. *)
Theorem accept_deletes_record :
  (forall env t v s, map_get t (reg (snd (accept_finish env t v s))) = None)
  /\ (forall sys t v env,
        reachable sys -> t <> "" ->
        map_get t (reg (st sys)) = Some v -> is_rules_pending v = true ->
        map_get t (reg (snd (accept (q_st t) env (st sys)))) = None
        /\ (exists p, fst (accept (q_st t) env (st sys)) = Ok p)
        /\ (forall e, accept_lookups_ok env (discordUserId v) -> roleAdd env = Throw e ->
              fst (accept (q_st t) env (st sys))
              = Ok (PageVerificationError ("Failed to assign role: " ++ e))
              /\ forall cenv t' code v' s0 s1 msg,
                   callback_finish cenv t' code v' s0 = (Ok (PageVerificationError msg), s1) ->
                   ~ (exists ud, identity_ok cenv code ud) ->
                   render (PageVerificationError msg)
                   <> render (PageVerificationError ("Failed to assign role: " ++ e)))
        /\ (accept_lookups_ok env (discordUserId v) -> roleAdd env = Ok tt ->
              accept (q_st t) env (st sys)
              = (Ok PageSuccess,
                 mkSt (map_delete t (reg (st sys)))
                      (trace (st sys) ++ [EGrant (discordUserId v);
                                          ESuccessDM (discordUserId v); ERegDelete t])))).
Proof.
  split.
  - intros env t v s. rewrite (proj1 (accept_finish_spec env t v s)).
    apply map_get_delete_same.
  - intros sys t v env Hr Ht Hk Hp.
    pose proof (reachable_rp_ok sys Hr t v Hk Hp) as Hu.
    rewrite (accept_live env t v (st sys) Ht Hk Hp Hu).
    destruct (accept_finish_spec env t v (st sys)) as [Hreg Hok].
    split; [rewrite Hreg; apply map_get_delete_same|].
    split; [exact Hok|]. split.
    + intros e Hl He. split; [exact (accept_finish_grant_failed env t v _ e Hl He)|].
      intros cenv t' code v' s0 s1 msg Hcb Hno Heq.
      pose proof (callback_identity_failure cenv t' code v' s0 s1 msg Hcb Hno) as Hm.
      cbn in Heq. injection Heq as Heq.
      apply (identity_failure_not_grant msg e Hm). exact Heq.
    + intros Hl He. exact (accept_finish_granted env t v _ Hl He Hu).
Qed.

(** ** C2 *)

Lemma callback_missing_params (q : Query) (env : CallbackEnv) (s : St) :
  qtruthy (q_error q) = None ->
  qtruthy (q_code q) = None \/ qtruthy (q_state q) = None ->
  callback q env s = (Ok PageMissingParams, s).
Proof.
  intros He Hcs. unfold callback, callback_start, bind, ret. rewrite He.
  destruct Hcs as [H|H]; rewrite H;
    [reflexivity | destruct (qtruthy (q_code q)); reflexivity].
Qed.

Lemma callback_unknown_state (q : Query) (env : CallbackEnv) (s : St) (code t : string) :
  qtruthy (q_error q) = None -> qtruthy (q_code q) = Some code ->
  qtruthy (q_state q) = Some t -> map_get t (reg s) = None ->
  callback q env s = (Ok PageInvalidState, s).
Proof.
  intros He Hc Ht Hk. unfold callback, callback_start, bind, reg_get, ret.
  rewrite He, Hc, Ht. cbn beta iota. rewrite Hk. reflexivity.
Qed.

(** C2 (as the code has it): a callback lacking a code or a state, and a
    callback whose state is unknown, both leave the registry and the trace
    unchanged and render a page titled "Verification Failed"; the two pages
    differ in their body ("Missing authorization code or state parameter."
    against "Invalid or expired verification request."), so the requester
    can tell the two causes apart. *)
Theorem callback_failure_pages_distinguishable :
  (forall q env s,
     qtruthy (q_error q) = None ->
     qtruthy (q_code q) = None \/ qtruthy (q_state q) = None ->
     callback q env s = (Ok PageMissingParams, s))
  /\ (forall q env s code t,
        qtruthy (q_error q) = None -> qtruthy (q_code q) = Some code ->
        qtruthy (q_state q) = Some t -> map_get t (reg s) = None ->
        callback q env s = (Ok PageInvalidState, s))
  /\ fst (render PageMissingParams) = "Verification Failed"
  /\ fst (render PageInvalidState) = "Verification Failed"
  /\ snd (render PageMissingParams) <> snd (render PageInvalidState).
Proof.
  split; [exact callback_missing_params|].
  split; [exact callback_unknown_state|].
  split; [reflexivity|]. split; [reflexivity|].
  cbn. discriminate.
Qed.

(** C2 does not hold: a callback for a live-looking token that lacks its
    code and a callback with a code for an unknown token render different
    pages. *)
Lemma callback_pages_differ :
  callback (mkQuery None (Some tok) None) env_bad_code (mkSt [] [])
  = (Ok PageMissingParams, mkSt [] [])
  /\ callback (q_cb "c1" tok) env_bad_code (mkSt [] [])
     = (Ok PageInvalidState, mkSt [] [])
  /\ render PageMissingParams <> render PageInvalidState.
Proof.
  split; [reflexivity|]. split; [reflexivity|]. cbn. discriminate.
Qed.

(** ** C1 *)

Lemma remove_nth_in {A} (i : nat) (l : list A) (x : A) :
  In x (remove_nth i l) -> In x l.
Proof.
  revert i. induction l as [|y l IH]; intros [|i]; cbn; try tauto.
  intros [H|H]; [left; exact H | right; exact (IH i H)].
Qed.

Lemma callback_start_job (q : Query) (s s' : St) (j : Job) :
  callback_start q s = (Ok (inr j), s') -> exists v, map_get (job_token j) (reg s) = Some v.
Proof.
  unfold callback_start. crunch; intros H; injection H; intros; subst;
    try discriminate; cbn [job_token]; eauto.
Qed.

Lemma accept_start_job (q : Query) (s s' : St) (j : Job) :
  accept_start q s = (Ok (inr j), s') -> exists v, map_get (job_token j) (reg s) = Some v.
Proof.
  unfold accept_start. crunch; intros H; injection H; intros; subst;
    try discriminate; cbn [job_token]; eauto.
Qed.

Lemma sys_step_inflight (s : Sys) (a : Action) (j : Job) :
  In j (inflight (fst (sys_step s a))) ->
  In j (inflight s) \/ exists v, map_get (job_token j) (reg (st s)) = Some v.
Proof.
  destruct a as [g uid tag hr tk now env|q|q|q|now|i env|i env]; cbn [sys_step].
  - destruct (onGuildMemberAdd g uid tag hr tk now env (st s)). cbn. tauto.
  - pose proof (callback_start_job q (st s)) as Hj.
    destruct (callback_start q (st s)) as [[[p|j0]|e] st']; cbn; try tauto.
    intros H. apply in_app_or in H as [H|[H|[]]]; [tauto|subst].
    right. exact (Hj _ _ eq_refl).
  - pose proof (accept_start_job q (st s)) as Hj.
    destruct (accept_start q (st s)) as [[[p|j0]|e] st']; cbn; try tauto.
    intros H. apply in_app_or in H as [H|[H|[]]]; [tauto|subst].
    right. exact (Hj _ _ eq_refl).
  - destruct (decline q (st s)). cbn. tauto.
  - destruct (cleanupExpiredVerifications now default_maxAge (st s)). cbn. tauto.
  - destruct (nth_error (inflight s) i) as [[t code v|t v]|]; cbn [fst]; try tauto.
    destruct (callback_finish env t code v (st s)). cbn.
    intros H. left. exact (remove_nth_in _ _ _ H).
  - destruct (nth_error (inflight s) i) as [[t code v|t v]|]; cbn [fst]; try tauto.
    destruct (accept_finish env t v (st s)). cbn.
    intros H. left. exact (remove_nth_in _ _ _ H).
Qed.

Lemma sys_step_job_token (s : Sys) (i : nat) (j : Job) :
  nth_error (inflight s) i = Some j -> In j (inflight s).
Proof. apply nth_error_In. Qed.

Lemma callback_start_absent (q : Query) (s : St) (t : string) :
  qtruthy (q_state q) = Some t -> map_get t (reg s) = None ->
  exists p, callback_start q s = (Ok (inl p), s)
    /\ (p = PageInvalidState \/ p = PageMissingParams \/ exists e, p = PageCallbackError e)
    /\ (qtruthy (q_error q) = None -> qtruthy (q_code q) <> None -> p = PageInvalidState).
Proof.
  intros Ht Hk. unfold callback_start, bind, reg_get, ret.
  destruct (qtruthy (q_error q)) as [e|] eqn:He.
  - exists (PageCallbackError e). split; [reflexivity|].
    split; [eauto|]. intros H; discriminate.
  - rewrite Ht. destruct (qtruthy (q_code q)) as [c|] eqn:Hc.
    + cbn beta iota. rewrite Hk. exists PageInvalidState. auto.
    + exists PageMissingParams. split; [reflexivity|].
      split; [auto|]. intros _ H; contradiction.
Qed.

Lemma accept_start_absent (q : Query) (s : St) (t : string) :
  qtruthy (q_state q) = Some t -> map_get t (reg s) = None ->
  accept_start q s = (Ok (inl PageRulesInvalid), s).
Proof.
  intros Ht Hk. unfold accept_start, bind, reg_get, ret. rewrite Ht.
  cbn beta iota. rewrite Hk. reflexivity.
Qed.

Lemma decline_absent (q : Query) (s : St) (t : string) :
  qtruthy (q_state q) = Some t -> map_get t (reg s) = None ->
  decline q s = (Ok PageRulesInvalid, s).
Proof.
  intros Ht Hk. unfold decline, bind, reg_get, ret. rewrite Ht.
  cbn beta iota. rewrite Hk. reflexivity.
Qed.

(** C1 (as the code has it): while a token [t] has no record and no
    request holding [t] is in flight, every step that does not draw [t]
    for a new member keeps it so; in that situation an accept or decline
    request with [t] renders "invalid or expired" and changes nothing, and
    a callback request with [t] changes nothing and renders "invalid or
    expired" when it carries a code and no provider error, and otherwise
    the missing-parameter page or the provider-error page. *)
Theorem consumed_token_stays_invalid :
  forall sys t,
    map_get t (reg (st sys)) = None ->
    (forall j, In j (inflight sys) -> job_token j <> t) ->
    (forall a, fresh_for t a ->
       map_get t (reg (st (fst (sys_step sys a)))) = None
       /\ forall j, In j (inflight (fst (sys_step sys a))) -> job_token j <> t)
    /\ (forall q, qtruthy (q_state q) = Some t ->
          sys_step sys (AAccept q) = (sys, RPage PageRulesInvalid)
          /\ sys_step sys (ADecline q) = (sys, RPage PageRulesInvalid)
          /\ exists p, sys_step sys (ACallback q) = (sys, RPage p)
               /\ (p = PageInvalidState \/ p = PageMissingParams
                   \/ exists e, p = PageCallbackError e)
               /\ (qtruthy (q_error q) = None -> qtruthy (q_code q) <> None ->
                   p = PageInvalidState)).
Proof.
  intros sys t Hk Hj. split.
  - intros a Hf. split.
    + fold (after sys a).
      destruct (sys_step_reg sys a) as
        [H|[(t' & H)|[(g & uid & tag & hr & tk & now & env & Ha & H)
        |[(i & env & t' & code & v & ud & ws & Ha & Hi & _ & _ & _ & _ & H)
        |(now & _ & H)]]]].
      * rewrite H. exact Hk.
      * rewrite H, map_get_delete. destruct (String.eqb t t'); [reflexivity|exact Hk].
      * subst a. cbn in Hf. rewrite H, map_get_set.
        destruct (String.eqb_spec t tk); [congruence|exact Hk].
      * rewrite H, map_get_set.
        pose proof (Hj _ (sys_step_job_token _ _ _ Hi)) as Ht'. cbn in Ht'.
        destruct (String.eqb_spec t t'); [congruence|exact Hk].
      * rewrite H, Hk. destruct (expired_key _ _ _ t); reflexivity.
    + intros j Hin. destruct (sys_step_inflight sys a j Hin) as [H|(v & H)].
      * exact (Hj j H).
      * intros E. rewrite E, Hk in H. discriminate.
  - intros q Ht. destruct sys as [s fl]. cbn [st] in Hk. split; [|split].
    + cbn [sys_step st]. rewrite (accept_start_absent q s t Ht Hk). reflexivity.
    + cbn [sys_step st]. rewrite (decline_absent q s t Ht Hk). reflexivity.
    + destruct (callback_start_absent q s t Ht Hk) as (p & E & Hp & Hi).
      exists p. cbn [sys_step st]. rewrite E. auto.
Qed.

(** C1 does not hold: the callback writes the record after its [await]s
    without looking again at the registry. After a successful accept has
    consumed [tok], a second callback for [tok] that was still in flight
    re-inserts the record, and a second accept with [tok] grants the role
    again; likewise a record deleted by a failed callback is re-inserted by
    an earlier callback still in flight, and accepting with [tok] then
    grants the role. *)
Lemma consumed_token_granted_twice :
  map_get tok (reg (st accepted_once)) = None
  /\ In (EGrant "u1") (trace (st accepted_once))
  /\ sys_step accepted_twice (AResumeAc 0 accept_env_ok)
     = (mkSys
          (mkSt []
             [ERegSet tok; EWelcomeDM "u1"; EWarn (NoPoolYear (JStr "ana"));
              ERegSet tok; EGrant "u1"; ESuccessDM "u1"; ERegDelete tok;
              EWarn (NoPoolYear (JStr "ana"));
              ERegSet tok; EGrant "u1"; ESuccessDM "u1"; ERegDelete tok])
          [],
        RPage PageSuccess)
  /\ map_get tok (reg (st replay_dead)) = None
  /\ snd (sys_step replay_revived (AResumeAc 0 accept_env_ok)) = RPage PageSuccess.
Proof.
  split; [vm_compute; reflexivity|].
  split; [vm_compute; tauto|].
  split; [vm_compute; reflexivity|].
  split; vm_compute; reflexivity.
Qed.

(** ** C3 *)

Lemma callback_finish_ignores_step (env : CallbackEnv) (t code : string)
    (v : Verification) (s : St) :
  callback_finish env t code v s
  = callback_finish env t code
      (mkVerification (discordUserId v) (discordUsername v) (timestamp v)
                      (userData v) None) s.
Proof. reflexivity. Qed.

(** C3 (as the code has it): a step writes a record awaiting consent under
    a token only when an in-flight callback for that token completes after
    a successful token exchange, claims fetch, eligibility check and member
    lookup, and the record written carries the fetched claims; a record
    awaiting consent stays so until it is deleted (no step other than a
    join drawing the same token resets it); and the callback does not look
    at [step], so a further callback for a record already awaiting consent
    behaves as for a fresh one and, on success, writes the record again
    with the newly fetched claims. *)
Theorem rules_pending_only_after_identity :
  (forall sys a t v',
     map_get t (after sys a) = Some v' -> is_rules_pending v' = true ->
     map_get t (reg (st sys)) = Some v'
     \/ exists i env code v ud ws,
          a = AResumeCb i env /\ nth_error (inflight sys) i = Some (CbJob t code v)
          /\ identity_ok env code ud /\ validateStudentStatus ud = Ok (true, ws)
          /\ guildCached env = true /\ memberFetch env (discordUserId v) = Ok true
          /\ v' = with_claims v ud)
  /\ (forall sys a t v,
        fresh_for t a -> map_get t (reg (st sys)) = Some v -> is_rules_pending v = true ->
        match map_get t (after sys a) with
        | None => True
        | Some v' => is_rules_pending v' = true
        end)
  /\ (forall env code t v s,
        code <> "" -> t <> "" -> map_get t (reg s) = Some v ->
        callback (q_cb code t) env s
        = callback_finish env t code
            (mkVerification (discordUserId v) (discordUsername v) (timestamp v)
                            (userData v) None) s).
Proof.
  split; [|split].
  - intros sys a t v' Hk Hp.
    destruct (sys_step_reg sys a) as
      [H|[(t' & H)|[(g & uid & tag & hr & tk & now & env & Ha & H)
      |[(i & env & t' & code & v & ud & ws & Ha & Hi & Hid & Hv & Hg & Hm & H)
      |(now & _ & H)]]]]; rewrite H in Hk.
    + left. exact Hk.
    + left. rewrite map_get_delete in Hk. destruct (String.eqb t t'); [discriminate|exact Hk].
    + left. rewrite map_get_set in Hk. destruct (String.eqb t tk); [|exact Hk].
      injection Hk as <-. discriminate.
    + rewrite map_get_set in Hk. destruct (String.eqb_spec t t') as [->|_].
      * right. injection Hk as <-. exists i, env, code, v, ud, ws. tauto.
      * left. exact Hk.
    + left. destruct (expired_key _ _ _ t); [discriminate|exact Hk].
  - intros sys a t v Hf Hk Hp.
    destruct (sys_step_reg sys a) as
      [H|[(t' & H)|[(g & uid & tag & hr & tk & now & env & Ha & H)
      |[(i & env & t' & code & w & ud & ws & Ha & Hi & Hid & Hv & Hg & Hm & H)
      |(now & _ & H)]]]]; rewrite H.
    + rewrite Hk. exact Hp.
    + rewrite map_get_delete. destruct (String.eqb t t'); [exact I|rewrite Hk; exact Hp].
    + subst a. cbn in Hf. rewrite map_get_set.
      destruct (String.eqb_spec t tk); [congruence|rewrite Hk; exact Hp].
    + rewrite map_get_set. destruct (String.eqb t t'); [reflexivity|rewrite Hk; exact Hp].
    + rewrite Hk. destruct (expired_key _ _ _ t); [exact I|exact Hp].
  - intros env code t v s Hc Ht Hk.
    rewrite (callback_live env code t v s Hc Ht Hk). apply callback_finish_ignores_step.
Qed.

(** C3 does not hold: two callbacks that both succeed write the record of
    [tok] as awaiting consent twice, the second time replacing the claims
    of the first. *)
Lemma rules_pending_written_twice :
  let s1 := run sys_init [AJoin true "u1" "ana#1" false tok 0 join_env_ok;
                          ACallback (q_cb "c1" tok); AResumeCb 0 (env_ok student)] in
  let s2 := run s1 [ACallback (q_cb "c2" tok); AResumeCb 0 (env_ok student2)] in
  map_get tok (reg (st s1))
  = Some (mkVerification "u1" "ana#1" 0 student (Some rules_pending))
  /\ snd (sys_step s1 (ACallback (q_cb "c2" tok))) = RNone
  /\ map_get tok (reg (st s2))
     = Some (mkVerification "u1" "ana#1" 0 student2 (Some rules_pending)).
Proof.
  vm_compute. repeat split; reflexivity.
Qed.

(** * Witnesses: the claims' theorems at concrete inputs *)

Lemma reachable_run (s : Sys) (acts : list Action) :
  reachable s -> reachable (run s acts).
Proof.
  revert s. induction acts as [|a acts IH]; intros s H; cbn; [exact H|].
  apply IH. apply reach_step. exact H.
Qed.

Lemma reachable_sys_pending : reachable sys_pending.
Proof. apply reachable_run. constructor. Qed.

Lemma reachable_sys_declined : reachable sys_declined.
Proof. apply reachable_run. exact reachable_sys_pending. Qed.

Lemma validateStudentStatus_total_and_exact_witness :
  verdict staff_member = Some false /\ verdict student = Some true.
Proof.
  split.
  - apply (proj1 (proj2 validateStudentStatus_total_and_exact)).
    right; right; right; left. vm_compute. reflexivity.
  - apply (proj2 (proj2 validateStudentStatus_total_and_exact)).
    vm_compute. reflexivity.
Defined.

Lemma validateStudentStatus_ignores_pool_witness :
  validateStudentStatus student = Ok (true, [NoPoolYear (JStr "ana")]).
Proof.
  apply (proj1 validateStudentStatus_ignores_pool student);
    vm_compute; reflexivity.
Defined.

Lemma cleanup_removes_expired_witness :
  map_get tok (reg (snd (cleanupExpiredVerifications (0 + 600000 - 1) 600000 s_one)))
  = Some v0
  /\ map_get tok (reg (snd (cleanupExpiredVerifications (0 + 600000 + 1) 600000 s_one)))
     = None.
Proof.
  apply (proj1 (proj2 cleanup_removes_expired) 600000 s_one tok v0 1).
  - vm_compute. repeat constructor. intros [].
  - vm_compute. reflexivity.
  - lia.
Defined.

Lemma cleanup_keeps_fresh_witness :
  map_get tok (reg (snd (cleanupExpiredVerifications 300000 600000 s_one))) = Some v0
  /\ map_get tok (reg (snd (cleanupExpiredVerifications (0 + 600000) 600000 s_one)))
     = Some v0.
Proof.
  apply (cleanup_keeps_fresh 300000 600000 s_one tok v0).
  - vm_compute. repeat constructor. intros [].
  - vm_compute. reflexivity.
  - vm_compute. discriminate.
Defined.

Lemma callback_failure_deletes_record_witness :
  map_get tok (reg (snd (callback (q_cb "c1" tok) env_bad_code s_one))) = None
  /\ exists msg, fst (callback (q_cb "c1" tok) env_bad_code s_one)
                 = Ok (PageVerificationError msg).
Proof.
  apply (proj1 (proj2 callback_failure_deletes_record) env_bad_code "c1" tok v0 s_one).
  - discriminate.
  - discriminate.
  - vm_compute. reflexivity.
  - intros (ud & tr & at_ & H & _). vm_compute in H. discriminate.
Defined.

Lemma decline_deletes_without_grant_witness :
  decline (q_st tok) (st sys_pending)
  = (Ok PageDeclined,
     mkSt (map_delete tok (reg (st sys_pending)))
          (trace (st sys_pending) ++ [ERegDelete tok])).
Proof.
  apply (proj1 decline_deletes_without_grant sys_pending tok v_pending).
  - exact reachable_sys_pending.
  - discriminate.
  - vm_compute. reflexivity.
  - vm_compute. reflexivity.
Defined.

Lemma accept_deletes_record_witness :
  map_get tok (reg (snd (accept (q_st tok) accept_env_role_fail (st sys_pending)))) = None
  /\ fst (accept (q_st tok) accept_env_role_fail (st sys_pending))
     = Ok (PageVerificationError ("Failed to assign role: " ++ "Missing Permissions")).
Proof.
  destruct (proj2 accept_deletes_record sys_pending tok v_pending accept_env_role_fail)
    as (H1 & _ & H3 & _).
  - exact reachable_sys_pending.
  - discriminate.
  - vm_compute. reflexivity.
  - vm_compute. reflexivity.
  - split; [exact H1|]. apply (H3 "Missing Permissions").
    + vm_compute. repeat split.
    + vm_compute. reflexivity.
Defined.

Lemma callback_failure_pages_distinguishable_witness :
  callback (q_cb "c1" tok) env_bad_code (mkSt [] []) = (Ok PageInvalidState, mkSt [] []).
Proof.
  apply (proj1 (proj2 callback_failure_pages_distinguishable)
           (q_cb "c1" tok) env_bad_code (mkSt [] []) "c1" tok);
    vm_compute; reflexivity.
Defined.

Lemma consumed_token_stays_invalid_witness :
  sys_step sys_declined (AAccept (q_st tok)) = (sys_declined, RPage PageRulesInvalid).
Proof.
  destruct (consumed_token_stays_invalid sys_declined tok) as [_ H].
  - vm_compute. reflexivity.
  - intros j Hj. vm_compute in Hj. destruct Hj.
  - apply (H (q_st tok)). vm_compute. reflexivity.
Defined.

Lemma rules_pending_only_after_identity_witness :
  match map_get tok (after sys_pending (ASweep 1000)) with
  | None => True
  | Some v' => is_rules_pending v' = true
  end.
Proof.
  apply (proj1 (proj2 rules_pending_only_after_identity) sys_pending (ASweep 1000)
           tok v_pending).
  - exact I.
  - vm_compute. reflexivity.
  - vm_compute. reflexivity.
Defined.

(** * Further properties of the code *)

(** ** The 42 API helpers *)


Lemma truthy_not_nullish v : truthy v = true -> nullish v = false.
Proof. destruct v; cbn; congruence. Qed.

Lemma nullish_get_prop v k : nullish v = false -> get_prop v k = Ok (prop v k).
Proof. destruct v; cbn; congruence. Qed.

Lemma nullish_get_elem0 v : nullish v = false -> get_elem0 v = Ok (elem0 v).
Proof. destruct v; cbn; congruence. Qed.

Lemma get_prop_nullish_throw v k : nullish v = true -> exists m, get_prop v k = Throw m.
Proof. destruct v; cbn; try discriminate; eauto. Qed.

Lemma get_elem0_nullish_throw v : nullish v = true -> exists m, get_elem0 v = Throw m.
Proof. destruct v; cbn; try discriminate; eauto. Qed.

Lemma truthy_get_elem0 v : truthy v = true -> get_elem0 v = Ok (elem0 v).
Proof. intros H. apply nullish_get_elem0, truthy_not_nullish, H. Qed.

Lemma get_prop_throw_iff x k : (exists m, get_prop x k = Throw m) <-> nullish x = true.
Proof. destruct x; cbn; split; intros H; try discriminate; try (destruct H; discriminate); eauto. Qed.

Lemma reads_first_truthy c : reads_first c = true -> truthy c = true.
Proof. unfold reads_first. intros H. apply andb_true_iff in H. tauto. Qed.

Lemma getPrimaryCampus_eq v : nullish v = false ->
  getPrimaryCampus v =
  if reads_first (prop v "campus") then get_prop (elem0 (prop v "campus")) "name" else Ok JNull.
Proof.
  intros Nv. unfold getPrimaryCampus, reads_first.
  rewrite (nullish_get_prop v _ Nv). cbn [rbind].
  destruct (truthy (prop v "campus")) eqn:T; cbn [negb andb]; [|reflexivity].
  rewrite (nullish_get_prop _ _ (truthy_not_nullish _ T)). cbn [rbind].
  destruct (strict_eq _ _); cbn [negb]; [reflexivity|].
  rewrite (truthy_get_elem0 _ T). reflexivity.
Qed.

Lemma getPrimaryCursus_eq v : nullish v = false ->
  getPrimaryCursus v =
  if reads_first (prop v "cursus_users") then
    let? c := get_prop (elem0 (prop v "cursus_users")) "cursus" in get_prop c "name"
  else Ok JNull.
Proof.
  intros Nv. unfold getPrimaryCursus, reads_first.
  rewrite (nullish_get_prop v _ Nv). cbn [rbind].
  destruct (truthy (prop v "cursus_users")) eqn:T; cbn [negb andb]; [|reflexivity].
  rewrite (nullish_get_prop _ _ (truthy_not_nullish _ T)). cbn [rbind].
  destruct (strict_eq _ _); cbn [negb]; [reflexivity|].
  rewrite (truthy_get_elem0 _ T). reflexivity.
Qed.

Lemma getCurrentLevel_eq v : nullish v = false ->
  getCurrentLevel v =
  if reads_first (prop v "cursus_users") then get_prop (elem0 (prop v "cursus_users")) "level"
  else Ok JNull.
Proof.
  intros Nv. unfold getCurrentLevel, reads_first.
  rewrite (nullish_get_prop v _ Nv). cbn [rbind].
  destruct (truthy (prop v "cursus_users")) eqn:T; cbn [negb andb]; [|reflexivity].
  rewrite (nullish_get_prop _ _ (truthy_not_nullish _ T)). cbn [rbind].
  destruct (strict_eq _ _); cbn [negb]; [reflexivity|].
  rewrite (truthy_get_elem0 _ T). reflexivity.
Qed.

Ltac nul_case x k :=
  let E := fresh "N" in
  destruct (nullish x) eqn:E;
  [ let m := fresh "m" in let Hm := fresh "Hm" in
    destruct (proj2 (get_prop_throw_iff x k) E) as [m Hm]; rewrite ?Hm
  | rewrite ?(nullish_get_prop x k E) ].

Ltac rw_ok :=
  repeat (match goal with
          | H : nullish ?x = false |- context [get_prop ?x ?k] => rewrite (nullish_get_prop x k H)
          end; cbn [rbind]).

(** [createUserSummary] throws exactly when [userData] is [null] or
    [undefined], or the campus it reads first is nullish, or the cursus it
    reads first (or that entry's [cursus]) is nullish. *)
Theorem createUserSummary_throws_iff (v : jsval) :
  (exists m, createUserSummary v = Throw m) <-> summary_throws v = true.
Proof.
  unfold summary_throws.
  destruct (nullish v) eqn:Nv.
  - split; [intros _; reflexivity|intros _].
    destruct (proj2 (get_prop_throw_iff v "login") Nv) as [m Hm].
    unfold createUserSummary. rewrite Hm. cbn [rbind]. eauto.
  - unfold createUserSummary.
    rewrite (getPrimaryCampus_eq v Nv), (getPrimaryCursus_eq v Nv), (getCurrentLevel_eq v Nv).
    rewrite !(nullish_get_prop v _ Nv). cbn [rbind orb].
    destruct (reads_first (prop v "campus")); cbn [andb orb];
    [ nul_case (elem0 (prop v "campus")) "name"; cbn [rbind andb orb];
      [ split; eauto | ] | ];
    (destruct (reads_first (prop v "cursus_users")); cbn [andb orb];
    [ nul_case (elem0 (prop v "cursus_users")) "cursus"; cbn [rbind andb orb];
      [ split; eauto
      | nul_case (prop (elem0 (prop v "cursus_users")) "cursus") "name"; cbn [rbind andb orb];
        [ split; eauto
        | rw_ok; split; [intros [m Hm]; discriminate | discriminate]]]
    | split; [intros [m Hm]; discriminate | discriminate]]).
Qed.

Lemma validate42User_eq (v : jsval) : validate42User v = Ok (validate42_code v).
Proof.
  unfold validate42User, validate42_code, length_is_zero.
  destruct (truthy v) eqn:Tv; cbn [negb andb]; [|reflexivity].
  rewrite !(get_prop_ok v _ Tv). cbn [rbind].
  destruct (truthy (prop v "login")); cbn [negb andb]; [|reflexivity].
  destruct (truthy (prop v "email")); cbn [negb andb]; [|reflexivity].
  destruct (truthy (prop v "cursus_users")) eqn:Tc; cbn [negb andb]; [|reflexivity].
  rewrite (get_prop_ok _ _ Tc). cbn [rbind].
  destruct (strict_eq _ _); reflexivity.
Qed.

(** [validate42User] never throws; it accepts exactly the truthy payloads
    with a truthy [login], a truthy [email] and a truthy [cursus_users] whose
    [length] is not [0]. *)
Theorem validate42User_exact (v : jsval) : validate42User v = Ok (validate42_code v).
Proof. exact (validate42User_eq v). Qed.

(** [validateStudentStatus] accepts a payload exactly when [validate42User]
    accepts it and, in addition, [staff?] is falsy, [campus] is truthy with a
    [length] other than [0], and [active?] is not [false]. *)
Theorem validateStudentStatus_is_validate42User_plus (v : jsval) :
  verdict v = Some true <->
  validate42User v = Ok true
  /\ truthy (prop v "staff?") = false
  /\ truthy (prop v "campus") = true
  /\ length_is_zero (prop v "campus") = false
  /\ strict_eq (prop v "active?") (JBool false) = false.
Proof.
  rewrite verdict_eligible_code, validate42User_eq.
  unfold eligible_code, validate42_code.
  destruct (truthy v), (truthy (prop v "login")), (truthy (prop v "email")),
    (truthy (prop v "staff?")), (truthy (prop v "cursus_users")),
    (length_is_zero (prop v "cursus_users")), (truthy (prop v "campus")),
    (length_is_zero (prop v "campus")), (strict_eq (prop v "active?") (JBool false));
    cbn; intuition congruence.
Qed.

(** [getPrimaryCampus] on a non-nullish payload returns [null] when
    [campus] is missing, [null] or an empty array, and otherwise reads
    [name] of the first element of a [campus] array. *)
Theorem getPrimaryCampus_cases (v : jsval) :
  nullish v = false ->
  (missing_or_empty_array (prop v "campus") = true -> getPrimaryCampus v = Ok JNull)
  /\ (forall c cs, prop v "campus" = JArr (c :: cs) -> getPrimaryCampus v = get_prop c "name").
Proof.
  intros Nv. rewrite (getPrimaryCampus_eq v Nv). unfold reads_first. split.
  - destruct (prop v "campus") as [| | | | |[|]|]; cbn; congruence.
  - intros c cs ->. reflexivity.
Qed.

(** [getPrimaryCursus] and [getCurrentLevel] on a non-nullish payload
    return [null] when [cursus_users] is missing, [null] or an empty array;
    otherwise they read [cursus.name] and [level] of its first element. *)
Theorem getPrimaryCursus_getCurrentLevel_cases (v : jsval) :
  nullish v = false ->
  (missing_or_empty_array (prop v "cursus_users") = true ->
     getPrimaryCursus v = Ok JNull /\ getCurrentLevel v = Ok JNull)
  /\ (forall c cs, prop v "cursus_users" = JArr (c :: cs) ->
        getPrimaryCursus v = (let? k := get_prop c "cursus" in get_prop k "name")
        /\ getCurrentLevel v = get_prop c "level").
Proof.
  intros Nv. rewrite (getPrimaryCursus_eq v Nv), (getCurrentLevel_eq v Nv).
  unfold reads_first. split.
  - destruct (prop v "cursus_users") as [| | | | |[|]|]; cbn; intuition congruence.
  - intros c cs ->. split; reflexivity.
Qed.

Lemma cemit_warnings_eq ws t :
  cemit_warnings ws t = (Ok tt, (t ++ map CWarn ws)%list).
Proof.
  revert t. induction ws as [|w ws IH]; intros t; cbn.
  - rewrite app_nil_r. reflexivity.
  - rewrite IH, <- app_assoc. reflexivity.
Qed.

Lemma add42Role_eq env uid t :
  add42Role env uid t =
  (Ok (c_roleCached env && succeeded (c_roleAdd env)),
   (t ++ if c_roleCached env then [CGrant uid] else [])%list).
Proof.
  unfold add42Role, ctry, cbind, cemit, clift, cthrow, cret.
  destruct (c_roleCached env); cbn; [|rewrite app_nil_r; reflexivity].
  destruct (c_roleAdd env); reflexivity.
Qed.

Lemma remove42Role_eq env uid t :
  remove42Role env uid t =
  (Ok (c_roleCached env && succeeded (c_roleRemove env)),
   (t ++ if c_roleCached env then [CRevoke uid] else [])%list).
Proof.
  unfold remove42Role, ctry, cbind, cemit, clift, cthrow, cret.
  destruct (c_roleCached env); cbn; [|rewrite app_nil_r; reflexivity].
  destruct (c_roleRemove env); reflexivity.
Qed.

(** [add42Role] and [remove42Role] never reject: they resolve to [true]
    exactly when the role is in the guild's cache and the Discord call
    succeeds, and they call Discord only when the role is cached. *)
Theorem role_helpers_never_reject (env : CommandEnv) (uid : string) (t : list CEffect) :
  add42Role env uid t =
    (Ok (c_roleCached env && succeeded (c_roleAdd env)),
     (t ++ if c_roleCached env then [CGrant uid] else [])%list)
  /\ remove42Role env uid t =
    (Ok (c_roleCached env && succeeded (c_roleRemove env)),
     (t ++ if c_roleCached env then [CRevoke uid] else [])%list).
Proof. split; [apply add42Role_eq | apply remove42Role_eq]. Qed.

Ltac cstep :=
  repeat (unfold ctry, cbind, cemit, clift, cthrow, cret in *; cbn [negb andb fst snd] in *).

Ltac in_tac :=
  let H := fresh "H" in
  intros H; repeat (rewrite ?in_app_iff, ?in_map_iff in H; cbn in H);
  repeat match type of H with
         | _ \/ _ => destruct H as [H|H]
         | exists _, _ => destruct H as [? [H ?]]
         | False => destruct H
         | CGrant _ = CGrant _ => injection H; intros; subst
         | CRevoke _ = CRevoke _ => injection H; intros; subst
         | _ = _ => discriminate H
         end.

Ltac split_results :=
  repeat match goal with
         | |- context [match ?t with Ok _ => _ | Throw _ => _ end] =>
             let E := fresh "R" in destruct t eqn:E
         end; cbn [fst snd].

Ltac res_case t :=
  let E := fresh "R" in destruct t as [?|?] eqn:E; cbn [fst snd].

(** [/verify] calls [member.roles.add] only for the target user, and only
    when the member fetch succeeded, the member lacked the role, the login's
    42 profile was fetched and passes [validateStudentStatus], and the role is
    cached. *)
Theorem verify_grant_guarded (env : CommandEnv) (a : CmdArgs) (u : string) :
  In (CGrant u) (snd (handleVerifyCommand env a [])) ->
  u = target_id a /\ c_memberFetch env (target_id a) = Ok tt
  /\ c_hasRole env = false
  /\ (exists d, getUserByLogin env (login_arg a) = Ok d /\ verdict d = Some true)
  /\ c_roleCached env = true.
Proof.
  unfold handleVerifyCommand.
  cbv [cbind clift cemit ctry cret].
  destruct (c_memberFetch env (target_id a)) as [[]|m] eqn:Hf; cbn [fst snd]; [|in_tac].
  destruct (c_hasRole env) eqn:Hr; cbn [fst snd]; [in_tac|].
  destruct (getUserByLogin env (login_arg a)) as [d|m] eqn:Hd; cbn [fst snd]; [|in_tac].
  destruct (validate_result d) as [ws Hw]. rewrite Hw.
  rewrite cemit_warnings_eq.
  destruct (eligible_code d) eqn:He; cbn [negb fst snd].
  - rewrite add42Role_eq.
    destruct (c_roleCached env) eqn:Hc; cbn [andb fst snd].
    + assert (verdict d = Some true) by (rewrite verdict_eligible_code; congruence).
      destruct (c_roleAdd env); cbn [succeeded andb fst snd];
      split_results; in_tac; eauto 10.
    + res_case (c_roleAdd env); in_tac.
  - split_results; in_tac.
Qed.

Lemma eligible_reads_first (d : jsval) :
  eligible_code d = true ->
  nullish d = false /\ reads_first (prop d "campus") = true
  /\ reads_first (prop d "cursus_users") = true.
Proof.
  intros H. apply eligible_code_true in H.
  destruct H as (Hv & _ & _ & _ & Hcu & Hcul & Hc & Hcl & _).
  unfold reads_first. rewrite Hcu, Hcul, Hc, Hcl.
  split; [apply truthy_not_nullish; exact Hv | split; reflexivity].
Qed.

(** [/verify] can grant the role and still answer with the error reply:
    when the payload passes [validateStudentStatus] but the first [campus] or
    [cursus_users] entry is [null] or [undefined], [member.roles.add] has
    been called when building the success embed throws, and no DM is sent. *)
Theorem verify_grant_then_error (env : CommandEnv) (a : CmdArgs) (d : jsval) :
  c_memberFetch env (target_id a) = Ok tt ->
  c_hasRole env = false ->
  getUserByLogin env (login_arg a) = Ok d ->
  verdict d = Some true ->
  c_roleCached env = true ->
  c_roleAdd env = Ok tt ->
  nullish (elem0 (prop d "campus")) = true \/ nullish (elem0 (prop d "cursus_users")) = true ->
  exists ws m, handleVerifyCommand env a [] =
    (Ok tt, ([CDefer] ++ map CWarn ws ++ [CGrant (target_id a); CEdit (RVerifyError m)])%list).
Proof.
  intros Hf Hr Hd Hv Hc Ha Hn.
  rewrite verdict_eligible_code in Hv. injection Hv as He.
  destruct (eligible_reads_first d He) as (Nd & Rc & Rcu).
  destruct (validate_result d) as [ws Hw]. rewrite He in Hw.
  exists ws.
  unfold handleVerifyCommand. cbv [cbind clift cemit ctry cret].
  rewrite Hf, Hr, Hd, Hw; cbn [negb andb fst snd].
  rewrite cemit_warnings_eq, add42Role_eq, Hc, Ha.
  cbn [negb andb succeeded fst snd].
  rewrite !(nullish_get_prop d _ Nd).
  rewrite (getPrimaryCampus_eq d Nd), (getCurrentLevel_eq d Nd), Rc, Rcu.
  destruct Hn as [Hn|Hn].
  - destruct (proj2 (get_prop_throw_iff _ "name") Hn) as [m Hm]. rewrite Hm.
    exists m. cbn. rewrite <- !app_assoc. reflexivity.
  - destruct (proj2 (get_prop_throw_iff _ "level") Hn) as [m Hm]. rewrite Hm.
    destruct (get_prop (elem0 (prop d "campus")) "name") as [c|m'];
      [exists m | exists m']; cbn; rewrite <- !app_assoc; reflexivity.
Qed.


(** [/unverify] never grants a role; it calls [member.roles.remove] only
    for the target member, and only when the member has the role and the
    role is cached; it reports success only when that call resolved. *)
Theorem unverify_guarded (env : CommandEnv) (a : CmdArgs) :
  let t := snd (handleUnverifyCommand env a []) in
  (forall u, ~ In (CGrant u) t)
  /\ (forall u, In (CRevoke u) t ->
        u = target_id a /\ c_hasRole env = true /\ c_roleCached env = true)
  /\ (In (CEdit (RRemoved (target_tag a))) t -> c_roleRemove env = Ok tt).
Proof.
  cbv zeta. unfold handleUnverifyCommand. cbv [cbind clift cemit ctry cret].
  destruct (c_memberFetch env (target_id a)) as [[]|m]; cbn [fst snd];
    [|split; [intros ?; in_tac | split; [intros ?; in_tac | in_tac]]].
  destruct (c_hasRole env) eqn:Hr; cbn [negb fst snd];
    [rewrite remove42Role_eq|split; [intros ?; in_tac | split; [intros ?; in_tac | in_tac]]].
  destruct (c_roleCached env) eqn:Hc; destruct (c_roleRemove env) as [[]|m] eqn:Hm;
    cbn [andb succeeded]; split_results.
  all: split; [intros ?; in_tac | split; [intros ?; in_tac | in_tac]]; auto.
Qed.

Section MaskProofs.
Variable toLowerCase : string -> string.
Variable sensitiveKeys : list string.

Lemma in_assign k v fs a b : In (a, b) (assign k v fs) -> (a = k /\ b = v) \/ In (a, b) fs.
Proof.
  induction fs as [|[k' v'] fs IH]; cbn.
  - intros [H|[]]. injection H; intros; subst. auto.
  - destruct (String.eqb_spec k k') as [->|Hne]; cbn.
    + intros [H|H]; [injection H; intros; subst; auto | auto].
    + intros [H|H]; [auto | destruct (IH H) as [?|?]; auto].
Qed.

Lemma in_obj_assign fs k v a b : In (a, b) (obj_assign fs k v) -> (a = k /\ b = v) \/ In (a, b) fs.
Proof.
  unfold obj_assign. destruct (String.eqb k "__proto__"); [auto | apply in_assign].
Qed.

Lemma masked_entry_ok key value :
  (is_object value = true -> no_exposure toLowerCase sensitiveKeys (mask_object toLowerCase sensitiveKeys value)) ->
  entry_ok toLowerCase sensitiveKeys (key, masked_entry toLowerCase sensitiveKeys key value).
Proof.
  intros IH. unfold entry_ok, masked_entry; cbn [fst snd].
  destruct (key_sensitive _ _ key); [split; [auto | constructor; reflexivity]|].
  split; [discriminate|].
  destruct (is_object value) eqn:Ho; [auto | constructor; exact Ho].
Qed.

Lemma mask_object_no_exposure (v : jsval) :
  is_object v = true -> no_exposure toLowerCase sensitiveKeys (mask_object toLowerCase sensitiveKeys v).
Proof.
  induction v using jsval_nested_ind; try discriminate; intros _.
  - (* array *)
    cbn [mask_object].
    assert (G : forall i,
      (forall j x, nth_error ((fix go (l : list jsval) (i : nat) : list jsval :=
               match l with
               | [] => []
               | value :: l' =>
                   (if key_sensitive toLowerCase sensitiveKeys (index_key i) then JStr MASKED
                    else if is_object value then mask_object toLowerCase sensitiveKeys value
                    else value) :: go l' (S i)
               end) l i) j = Some x ->
         entry_ok toLowerCase sensitiveKeys (index_key (i + j), x))).
    { induction H as [|y l Hy Hl IHl]; intros i j x Hx.
      - destruct j; discriminate.
      - destruct j as [|j]; cbn in Hx.
        + injection Hx as <-. rewrite Nat.add_0_r.
          apply (masked_entry_ok (index_key i) y). exact Hy.
        + rewrite <- Nat.add_succ_comm. exact (IHl (S i) j x Hx). }
    apply NE_arr.
    + intros i x Hx Hs. exact (proj1 (G 0%nat i x Hx) Hs).
    + intros x Hx. apply In_nth_error in Hx. destruct Hx as [i Hx].
      exact (proj2 (G 0%nat i x Hx)).
  - (* object *)
    cbn [mask_object].
    assert (G : forall seen masked,
      (forall k x, In (k, x) masked -> entry_ok toLowerCase sensitiveKeys (k, x)) ->
      forall k x, In (k, x) ((fix go (fs : list (string * jsval)) (seen : list string)
                    (masked : list (string * jsval)) : list (string * jsval) :=
               match fs with
               | [] => masked
               | (key, value) :: fs' =>
                   if existsb (String.eqb key) seen then go fs' seen masked
                   else
                     go fs' (key :: seen)
                        (obj_assign masked key
                           (if key_sensitive toLowerCase sensitiveKeys key then JStr MASKED
                            else if is_object value then mask_object toLowerCase sensitiveKeys value
                            else value))
               end) fs seen masked) -> entry_ok toLowerCase sensitiveKeys (k, x)).
    { induction H as [|[key value] fs Hv Hfs IHfs]; intros seen masked Hm; [exact Hm|].
      cbn [snd] in Hv.
      destruct (existsb (String.eqb key) seen); [apply IHfs; exact Hm|].
      apply IHfs. intros k x Hx.
      destruct (in_obj_assign _ _ _ _ _ Hx) as [[-> ->]|Hin]; [|exact (Hm k x Hin)].
      apply (masked_entry_ok key value). exact Hv. }
    apply NE_obj.
    + intros k x Hx Hs. exact (proj1 (G [] [] (fun _ _ H => False_ind _ H) k x Hx) Hs).
    + intros k x Hx. exact (proj2 (G [] [] (fun _ _ H => False_ind _ H) k x Hx)).
Qed.

End MaskProofs.

(** Whatever [toLowerCase] and the sensitive keys are, no property of the
    result of [maskSensitiveData], at any depth, whose key is sensitive holds
    anything but ["***MASKED***"]. *)
Theorem maskSensitiveData_no_exposure (toLowerCase : string -> string)
    (sensitiveKeys : list string) (data : jsval) :
  no_exposure toLowerCase sensitiveKeys (maskSensitiveData toLowerCase sensitiveKeys data).
Proof.
  destruct data; try (apply NE_leaf; reflexivity);
    apply mask_object_no_exposure; reflexivity.
Qed.

Lemma own_prop_assign k k' v fs :
  own_prop k (assign k' v fs) = if String.eqb k k' then v else own_prop k fs.
Proof.
  induction fs as [|[k'' v''] fs IH]; cbn.
  - destruct (String.eqb k k'); reflexivity.
  - destruct (String.eqb_spec k' k'') as [<-|Hne]; cbn.
    + destruct (String.eqb k k'); reflexivity.
    + rewrite IH. destruct (String.eqb_spec k k'') as [->|]; [|reflexivity].
      destruct (String.eqb_spec k'' k') as [->|]; [congruence|reflexivity].
Qed.

Lemma own_prop_obj_assign k k' v fs :
  own_prop k (obj_assign fs k' v) =
  if String.eqb k' "__proto__" then own_prop k fs
  else if String.eqb k k' then v else own_prop k fs.
Proof. unfold obj_assign. destruct (String.eqb k' "__proto__"); [reflexivity|apply own_prop_assign]. Qed.

Section MaskLookup.
Variable toLowerCase : string -> string.
Variable sensitiveKeys : list string.

Let go := (fix go (fs : list (string * jsval)) (seen : list string)
                    (masked : list (string * jsval)) : list (string * jsval) :=
               match fs with
               | [] => masked
               | (key, value) :: fs' =>
                   if existsb (String.eqb key) seen then go fs' seen masked
                   else
                     go fs' (key :: seen)
                        (obj_assign masked key
                           (if key_sensitive toLowerCase sensitiveKeys key then JStr MASKED
                            else if is_object value then mask_object toLowerCase sensitiveKeys value
                            else value))
               end).

Lemma mask_fields_lookup fs : forall seen masked k,
  own_prop k (go fs seen masked) =
  if String.eqb k "__proto__" then own_prop k masked
  else if existsb (String.eqb k) seen then own_prop k masked
  else match lookup_first k fs with
       | Some x => masked_entry toLowerCase sensitiveKeys k x
       | None => own_prop k masked
       end.
Proof.
  induction fs as [|[key value] fs IH]; intros seen masked k; cbn [lookup_first].
  - cbn. destruct (String.eqb k "__proto__"), (existsb (String.eqb k) seen); reflexivity.
  - unfold go; fold go.
    destruct (existsb (String.eqb key) seen) eqn:Hs.
    + rewrite IH. destruct (String.eqb k "__proto__"); [reflexivity|].
      destruct (String.eqb_spec k key) as [->|]; [rewrite Hs; reflexivity|reflexivity].
    + rewrite IH. cbn [existsb]. rewrite own_prop_obj_assign.
      destruct (String.eqb_spec k "__proto__") as [->|Hp].
      * destruct (String.eqb_spec key "__proto__") as [->|Hkp]; [reflexivity|].
        destruct (String.eqb_spec "__proto__" key) as [Hq|]; [congruence|reflexivity].
      * destruct (String.eqb_spec k key) as [->|Hk]; cbn [orb].
        -- rewrite Hs. destruct (String.eqb_spec key "__proto__"); [congruence|reflexivity].
        -- destruct (existsb (String.eqb k) seen); [|].
           ++ destruct (String.eqb key "__proto__"); reflexivity.
           ++ destruct (String.eqb key "__proto__"), (lookup_first k fs); reflexivity.
Qed.

End MaskLookup.

(** Masking an object keeps exactly its own properties other than
    ["__proto__"]: a sensitive key reads ["***MASKED***"], a non-sensitive
    array or object value is masked in turn, and any other value, strings
    included, is copied unchanged (a URL nested in an object is not
    rewritten). ["__proto__"] is dropped. *)
Theorem maskSensitiveData_object_lookup (toLowerCase : string -> string)
    (sensitiveKeys : list string) (fs : list (string * jsval)) (k : string) :
  prop (maskSensitiveData toLowerCase sensitiveKeys (JObj fs)) k =
  if String.eqb k "__proto__" then JUndefined
  else match lookup_first k fs with
       | Some x => masked_entry toLowerCase sensitiveKeys k x
       | None => JUndefined
       end.
Proof.
  unfold maskSensitiveData, prop. cbn [mask_object get_prop].
  rewrite (mask_fields_lookup toLowerCase sensitiveKeys fs [] [] k).
  cbn [existsb own_prop].
  destruct (String.eqb k "__proto__"); [reflexivity|].
  destruct (lookup_first k fs); reflexivity.
Qed.

(** With [toLowerCase] lowering ASCII letters on ASCII strings, the debug
    log of the token exchange masks the client secret but shows the
    authorization code, the client id and the redirect URI in clear, and the
    [Authorization] header of [getUserInfo] is masked. *)
Theorem token_exchange_debug_masking (toLowerCase : string -> string)
    (Hlower : forall s, is_ascii s = true -> toLowerCase s = ascii_lower s)
    (clientId clientSecret code redirectUri : string) (accessToken : jsval) :
  maskSensitiveData toLowerCase default_sensitiveKeys
    (JObj [("url", JStr tokenUrl);
           ("body", tokenBody clientId clientSecret code redirectUri);
           ("headers", tokenHeaders)])
  = JObj [("url", JStr tokenUrl);
          ("body", tokenBody clientId MASKED code redirectUri);
          ("headers", tokenHeaders)]
  /\ maskSensitiveData toLowerCase default_sensitiveKeys
       (tokenBody clientId clientSecret code redirectUri)
     = tokenBody clientId MASKED code redirectUri
  /\ maskSensitiveData toLowerCase default_sensitiveKeys tokenHeaders = tokenHeaders
  /\ maskSensitiveData toLowerCase default_sensitiveKeys (userInfoHeaders accessToken)
     = JObj [("Authorization", JStr MASKED)].
Proof.
  unfold maskSensitiveData, tokenBody, tokenHeaders, userInfoHeaders.
  cbn [mask_object key_sensitive existsb default_sensitiveKeys].
  repeat rewrite Hlower by reflexivity.
  repeat split; reflexivity.
Qed.

Lemma byte_hex_check_ok (b : byte) : byte_hex_check b = true.
Proof. destruct b; vm_compute; reflexivity. Qed.

Lemma byte_hex_decode (b : byte) (s : string) :
  hex_to_bytes (byte_hex b ++ s) = option_map (cons b) (hex_to_bytes s)
  /\ String.length (byte_hex b) = 2%nat
  /\ string_forallb is_lower_hex (byte_hex b) = true.
Proof.
  pose proof (byte_hex_check_ok b) as H. unfold byte_hex_check in H.
  unfold byte_hex in *.
  set (h := hex_digit (Byte.to_nat b / 16)) in *.
  set (l := hex_digit (Byte.to_nat b mod 16)) in *.
  destruct (hex_value h) as [hi|] eqn:Hh; [|discriminate].
  destruct (hex_value l) as [lo|] eqn:Hl; [|discriminate].
  destruct (Byte.of_nat (16 * hi + lo)%nat) as [b'|] eqn:Hb; [|discriminate].
  apply andb_prop in H as [H Hlh]. apply andb_prop in H as [Heq Hhh].
  apply Byte.byte_dec_bl in Heq. subst b'.
  cbn [append String.length string_forallb hex_to_bytes]. rewrite Hh, Hl, Hb, Hhh, Hlh.
  split; [destruct (hex_to_bytes s); reflexivity | split; reflexivity].
Qed.

Lemma string_length_app (s1 s2 : string) :
  String.length (s1 ++ s2) = (String.length s1 + String.length s2)%nat.
Proof. induction s1; cbn; congruence. Qed.

Lemma string_forallb_app f (s1 s2 : string) :
  string_forallb f (s1 ++ s2) = string_forallb f s1 && string_forallb f s2.
Proof. induction s1; cbn; [reflexivity|]. rewrite IHs1, andb_assoc. reflexivity. Qed.

Lemma generateState_lower_hex (randomBytes : list byte) :
  string_forallb is_lower_hex (generateState randomBytes) = true.
Proof.
  unfold generateState. induction randomBytes as [|b bs IH]; [reflexivity|].
  cbn [bytes_to_hex]. rewrite string_forallb_app, IH.
  rewrite (proj2 (proj2 (byte_hex_decode b EmptyString))). reflexivity.
Qed.

(** The state [generateState] makes from [n] random bytes is [2 n]
    lower-case hexadecimal digits, from which the bytes are decoded back:
    distinct draws give distinct states. *)
Theorem generateState_hex (randomBytes : list byte) :
  String.length (generateState randomBytes) = (2 * List.length randomBytes)%nat
  /\ string_forallb is_lower_hex (generateState randomBytes) = true
  /\ hex_to_bytes (generateState randomBytes) = Some randomBytes
  /\ (forall randomBytes', generateState randomBytes' = generateState randomBytes ->
        randomBytes' = randomBytes).
Proof.
  assert (R : forall bs, hex_to_bytes (generateState bs) = Some bs).
  { induction bs as [|b bs IH]; [reflexivity|].
    unfold generateState in *; cbn [bytes_to_hex].
    rewrite (proj1 (byte_hex_decode b _)), IH. reflexivity. }
  split; [|split; [|split]].
  - unfold generateState. induction randomBytes as [|b bs IH]; [reflexivity|].
    cbn [bytes_to_hex List.length]. rewrite string_length_app, IH.
    rewrite (proj1 (proj2 (byte_hex_decode b EmptyString))). lia.
  - unfold generateState. induction randomBytes as [|b bs IH]; [reflexivity|].
    cbn [bytes_to_hex]. rewrite string_forallb_app, IH.
    rewrite (proj2 (proj2 (byte_hex_decode b EmptyString))). reflexivity.
  - apply R.
  - intros bs' E. pose proof (R bs') as H. rewrite E, R in H. congruence.
Qed.

Lemma urlencode_byte_check_ok (c : ascii) : urlencode_byte_check c = true.
Proof.
  destruct c as [b0 b1 b2 b3 b4 b5 b6 b7].
  destruct b0, b1, b2, b3, b4, b5, b6, b7; vm_compute; reflexivity.
Qed.

Lemma plus_to_space_app (s t : string) :
  plus_to_space (s ++ t) = plus_to_space s ++ plus_to_space t.
Proof. induction s; cbn; congruence. Qed.

Lemma urlencode_byte_decode (c : ascii) (t : string) :
  percent_decode (plus_to_space (urlencode_byte c) ++ t) = String c (percent_decode t).
Proof.
  pose proof (urlencode_byte_check_ok c) as H. unfold urlencode_byte_check in H.
  apply andb_prop in H as [H _].
  destruct (plus_to_space (urlencode_byte c)) as [|x [|h [|l [|]]]]; try discriminate.
  - apply andb_prop in H as [Hx Hc]. apply Ascii.eqb_eq in Hx. subst x.
    cbn. destruct (Ascii.eqb c "%"); [discriminate|reflexivity].
  - apply andb_prop in H as [Hp H]. apply Ascii.eqb_eq in Hp. subst x.
    destruct (hex_any h) as [hi|] eqn:Hh; [|discriminate].
    destruct (hex_any l) as [lo|] eqn:Hl; [|discriminate].
    apply Ascii.eqb_eq in H.
    cbn [append percent_decode]. cbn [Ascii.eqb Bool.eqb andb].
    rewrite Hh, Hl, H. reflexivity.
Qed.

Lemma form_decode_urlencode (s : string) : form_decode (urlencode s) = s.
Proof.
  unfold form_decode. induction s as [|c s IH]; [reflexivity|].
  cbn [urlencode]. rewrite plus_to_space_app, urlencode_byte_decode, IH. reflexivity.
Qed.

Lemma urlencode_no_amp_eq (s : string) : string_forallb no_amp_eq (urlencode s) = true.
Proof.
  induction s as [|c s IH]; [reflexivity|].
  cbn [urlencode]. rewrite string_forallb_app, IH.
  pose proof (urlencode_byte_check_ok c) as H. unfold urlencode_byte_check in H.
  apply andb_prop in H as [_ H]. rewrite H. reflexivity.
Qed.

Lemma split_amp_no_amp (x : string) :
  string_forallb no_amp_eq x = true -> split_amp x = [x].
Proof.
  induction x as [|c x IH]; [reflexivity|].
  cbn [string_forallb split_amp]. unfold no_amp_eq.
  destruct (Ascii.eqb c "&"); [discriminate|]. cbn. intros H.
  apply andb_prop in H as [_ H]. rewrite (IH H). reflexivity.
Qed.

Lemma split_amp_app (x y : string) :
  string_forallb no_amp_eq x = true -> split_amp (x ++ String "&" y) = x :: split_amp y.
Proof.
  induction x as [|c x IH]; [reflexivity|].
  cbn [string_forallb split_amp append]. unfold no_amp_eq.
  destruct (Ascii.eqb c "&"); [discriminate|]. cbn. intros H.
  apply andb_prop in H as [_ H]. rewrite (IH H). reflexivity.
Qed.

Lemma split_eq_app (x y : string) :
  string_forallb no_amp_eq x = true -> split_eq (x ++ String "=" y) = Some (x, y).
Proof.
  induction x as [|c x IH]; [reflexivity|].
  cbn [string_forallb split_eq append]. unfold no_amp_eq.
  destruct (Ascii.eqb c "="); [rewrite andb_false_r; discriminate|].
  rewrite andb_true_r. intros H. apply andb_prop in H as [_ H]. rewrite (IH H). reflexivity.
Qed.

Lemma str_app_assoc (a b c : string) : (a ++ b) ++ c = a ++ (b ++ c).
Proof. induction a; cbn; congruence. Qed.

Lemma url_piece_parse (n v : string) :
  string_forallb no_amp_eq (urlencode n) = true ->
  urlencoded_parse (url_piece n v) = [(n, v)]
  /\ forall y, urlencoded_parse (url_piece n v ++ String "&" y) = ((n, v) :: urlencoded_parse y)%list.
Proof.
  intros Hn.
  assert (Ha : string_forallb (fun c => negb (Ascii.eqb c "&")) (url_piece n v) = true).
  { unfold url_piece. rewrite string_forallb_app. 
    assert (G : forall s, string_forallb no_amp_eq s = true ->
                string_forallb (fun c => negb (Ascii.eqb c "&")) s = true).
    { induction s as [|c s IH]; [reflexivity|]. cbn [string_forallb].
      intros H. apply andb_prop in H as [H1 H2]. unfold no_amp_eq in H1.
      destruct (Ascii.eqb c "&"); [discriminate|]. cbn. exact (IH H2). }
    rewrite (G _ Hn). cbn. exact (G _ (urlencode_no_amp_eq v)). }
  assert (Hp : exists c r, url_piece n v = String c r).
  { unfold url_piece. destruct (urlencode n); cbn; eauto. }
  assert (He : forall p, url_piece n v = p -> p <> EmptyString ->
     (match p with
      | EmptyString => []
      | _ => match split_eq p with
             | Some (n0, v0) => [(form_decode n0, form_decode v0)]
             | None => [(form_decode p, EmptyString)]
             end
      end) = [(n, v)]).
  { intros p <- Hne. destruct Hp as [c [r Hcr]]. rewrite Hcr. rewrite <- Hcr.
    unfold url_piece. rewrite split_eq_app by exact Hn.
    rewrite !form_decode_urlencode. reflexivity. }
  assert (Hna : string_forallb no_amp_eq (url_piece n v) = true
                \/ True) by (right; exact I).
  clear Hna.
  assert (S1 : forall s, string_forallb (fun c => negb (Ascii.eqb c "&")) s = true ->
                 split_amp s = [s]).
  { induction s as [|c s IH]; [reflexivity|]. cbn.
    destruct (Ascii.eqb c "&"); [discriminate|]. cbn. intros H. rewrite (IH H). reflexivity. }
  assert (S2 : forall s y, string_forallb (fun c => negb (Ascii.eqb c "&")) s = true ->
                 split_amp (s ++ String "&" y) = s :: split_amp y).
  { induction s as [|c s IH]; intros y; [reflexivity|]. cbn.
    destruct (Ascii.eqb c "&"); [discriminate|]. cbn. intros H. rewrite (IH y H). reflexivity. }
  destruct Hp as [c [r Hcr]].
  split.
  - unfold urlencoded_parse. rewrite (S1 _ Ha). cbn [flat_map].
    rewrite (He _ eq_refl) by (rewrite Hcr; discriminate). reflexivity.
  - intros y. unfold urlencoded_parse. rewrite (S2 _ y Ha). cbn [flat_map].
    rewrite (He _ eq_refl) by (rewrite Hcr; discriminate). reflexivity.
Qed.

Lemma urlencoded_round_trip (l : list (string * string)) :
  urlencoded_parse (urlencoded_serialize l) = l.
Proof.
  induction l as [|[n v] l IH]; [reflexivity|].
  destruct (url_piece_parse n v (urlencode_no_amp_eq n)) as [P1 P2].
  destruct l as [|p l].
  - exact P1.
  - change (urlencoded_serialize ((n, v) :: p :: l))
      with (urlencode n ++ "=" ++ urlencode v ++ "&" ++ urlencoded_serialize (p :: l)).
    replace (urlencode n ++ "=" ++ urlencode v ++ "&" ++ urlencoded_serialize (p :: l))
      with (url_piece n v ++ String "&" (urlencoded_serialize (p :: l))).
    + rewrite P2, IH. reflexivity.
    + unfold url_piece. rewrite str_app_assoc. reflexivity.
Qed.

Lemma createAuthUrl_eq (clientId redirectUri state : jsval) :
  createAuthUrl clientId redirectUri state =
  authorizeUrl ++ "?" ++
  urlencoded_serialize [("client_id", js_toString clientId);
                        ("redirect_uri", js_toString redirectUri);
                        ("response_type", "code"); ("scope", "public");
                        ("state", js_toString state)].
Proof.
  unfold createAuthUrl, params_set.
  cbv [set_first option_map String.eqb Ascii.eqb Bool.eqb andb app].
  unfold href_with.
  match goal with |- match ?q with _ => _ end = _ => remember q as q0 eqn:Hq end.
  destruct q0 as [|a s]; [exfalso|reflexivity].
  cbn [urlencoded_serialize] in Hq.
  change (urlencode "client_id") with "client_id" in Hq. discriminate.
Qed.

(** The authorization URL is [authorizeUrl] with a query that the
    form-urlencoded parser reads back as exactly the five parameters, in
    order, whatever the client id, redirect URI and state (a [&], [=], [+],
    [%] or space in them is escaped). *)
Theorem createAuthUrl_query (clientId redirectUri state : jsval) :
  exists q, createAuthUrl clientId redirectUri state = authorizeUrl ++ "?" ++ q
  /\ urlencoded_parse q =
     [("client_id", js_toString clientId); ("redirect_uri", js_toString redirectUri);
      ("response_type", "code"); ("scope", "public"); ("state", js_toString state)].
Proof.
  eexists. split; [apply createAuthUrl_eq|]. apply urlencoded_round_trip.
Qed.

Lemma lower_hex_plain_check_ok (c : ascii) : lower_hex_plain_check c = true.
Proof.
  destruct c as [b0 b1 b2 b3 b4 b5 b6 b7].
  destruct b0, b1, b2, b3, b4, b5, b6, b7; vm_compute; reflexivity.
Qed.

Lemma urlencode_lower_hex (s : string) :
  string_forallb is_lower_hex s = true -> urlencode s = s.
Proof.
  induction s as [|c s IH]; [reflexivity|].
  cbn [string_forallb urlencode]. intros H. apply andb_prop in H as [Hc Hs].
  pose proof (lower_hex_plain_check_ok c) as K. unfold lower_hex_plain_check in K.
  rewrite Hc in K. apply String.eqb_eq in K. rewrite K, (IH Hs). reflexivity.
Qed.

(** The state drawn by [generateState] appears verbatim, unescaped, as the
    last parameter of the authorization URL. *)
Theorem createAuthUrl_generateState (clientId redirectUri : jsval) (randomBytes : list byte) :
  exists q, createAuthUrl clientId redirectUri (JStr (generateState randomBytes)) =
            authorizeUrl ++ "?" ++ q ++ "&state=" ++ generateState randomBytes.
Proof.
  rewrite createAuthUrl_eq. cbn [urlencoded_serialize js_toString].
  rewrite (urlencode_lower_hex (generateState randomBytes))
    by exact (generateState_lower_hex randomBytes).
  change (urlencode "state") with "state".
  exists (urlencode "client_id" ++ "=" ++ urlencode (js_toString clientId) ++ "&" ++
          urlencode "redirect_uri" ++ "=" ++ urlencode (js_toString redirectUri) ++ "&" ++
          urlencode "response_type" ++ "=" ++ urlencode "code" ++ "&" ++
          urlencode "scope" ++ "=" ++ urlencode "public").
  rewrite !str_app_assoc. cbn [append]. reflexivity.
Qed.

(** [getUserByLogin] returns the API data exactly when the request
    succeeded with a payload that is neither [null] nor [undefined]; every
    other outcome is a rejection whose message starts with
    ["Failed to get user by login: "]. *)
Theorem getUserByLogin_cases (env : CommandEnv) (login : string) :
  (forall d, getUserByLogin env login = Ok d <-> c_userGet env login = Ok d /\ nullish d = false)
  /\ (forall m, getUserByLogin env login = Throw m ->
        exists d, m = "Failed to get user by login: " ++ d).
Proof.
  unfold getUserByLogin. split.
  - intros d. destruct (c_userGet env login) as [x|e]; cbn [rbind].
    + destruct (nullish x) eqn:Nx.
      * destruct (get_prop_nullish_throw x "login" Nx) as [m Hm]. rewrite Hm.
        split; [discriminate | intros [H1 H2]; congruence].
      * rewrite !(nullish_get_prop x _ Nx). cbn [rbind].
        split; [intros H; injection H as <-; auto | intros [H1 _]; congruence].
    + split; [discriminate | intros [H _]; discriminate].
  - intros m. destruct (c_userGet env login) as [x|e]; cbn [rbind].
    + destruct (get_prop x "login") as [?|e]; cbn [rbind]; [|intros H; injection H as <-; eexists; reflexivity].
      destruct (get_prop x "displayname") as [?|e]; cbn [rbind]; [discriminate|].
      intros H; injection H as <-; eexists; reflexivity.
    + intros H; injection H as <-; eexists; reflexivity.
Qed.

(** ** Witnesses of the further properties *)

Lemma getPrimaryCampus_cases_witness :
  nullish student = false
  /\ (missing_or_empty_array (prop student "campus") = true -> getPrimaryCampus student = Ok JNull)
  /\ (forall c cs, prop student "campus" = JArr (c :: cs) -> getPrimaryCampus student = get_prop c "name").
Proof. split; [reflexivity | apply (getPrimaryCampus_cases student); reflexivity]. Defined.

Lemma getPrimaryCursus_getCurrentLevel_cases_witness :
  nullish student = false
  /\ (missing_or_empty_array (prop student "cursus_users") = true ->
       getPrimaryCursus student = Ok JNull /\ getCurrentLevel student = Ok JNull)
  /\ (forall c cs, prop student "cursus_users" = JArr (c :: cs) ->
        getPrimaryCursus student = (let? k := get_prop c "cursus" in get_prop k "name")
        /\ getCurrentLevel student = get_prop c "level").
Proof. split; [reflexivity | apply (getPrimaryCursus_getCurrentLevel_cases student); reflexivity]. Defined.

Lemma verify_grant_guarded_witness :
  In (CGrant "4242") (snd (handleVerifyCommand (cmd_env student) cmd_args []))
  /\ ("4242" = target_id cmd_args /\ c_memberFetch (cmd_env student) (target_id cmd_args) = Ok tt
      /\ c_hasRole (cmd_env student) = false
      /\ (exists d, getUserByLogin (cmd_env student) (login_arg cmd_args) = Ok d
                    /\ verdict d = Some true)
      /\ c_roleCached (cmd_env student) = true).
Proof.
  assert (H : In (CGrant "4242") (snd (handleVerifyCommand (cmd_env student) cmd_args []))).
  { vm_compute. auto 10. }
  split; [exact H | exact (verify_grant_guarded (cmd_env student) cmd_args "4242" H)].
Defined.

Lemma verify_grant_then_error_witness :
  c_memberFetch (cmd_env campus_null) (target_id cmd_args) = Ok tt
  /\ c_hasRole (cmd_env campus_null) = false
  /\ getUserByLogin (cmd_env campus_null) (login_arg cmd_args) = Ok campus_null
  /\ verdict campus_null = Some true
  /\ c_roleCached (cmd_env campus_null) = true
  /\ c_roleAdd (cmd_env campus_null) = Ok tt
  /\ (nullish (elem0 (prop campus_null "campus")) = true
      \/ nullish (elem0 (prop campus_null "cursus_users")) = true)
  /\ exists ws m, handleVerifyCommand (cmd_env campus_null) cmd_args [] =
       (Ok tt, ([CDefer] ++ map CWarn ws ++ [CGrant (target_id cmd_args);
                                            CEdit (RVerifyError m)])%list).
Proof.
  split; [reflexivity|]. split; [reflexivity|]. split; [reflexivity|].
  split; [vm_compute; reflexivity|]. split; [reflexivity|]. split; [reflexivity|].
  split; [left; reflexivity|].
  apply (verify_grant_then_error (cmd_env campus_null) cmd_args campus_null);
    first [reflexivity | vm_compute; reflexivity | left; reflexivity].
Defined.

Lemma token_exchange_debug_masking_witness :
  (forall s, is_ascii s = true -> ascii_lower s = ascii_lower s)
  /\ maskSensitiveData ascii_lower default_sensitiveKeys
       (JObj [("url", JStr tokenUrl);
              ("body", tokenBody "u-id" "s3cr3t" "c0de" "http://localhost:3000/auth/callback");
              ("headers", tokenHeaders)])
     = JObj [("url", JStr tokenUrl);
             ("body", tokenBody "u-id" MASKED "c0de" "http://localhost:3000/auth/callback");
             ("headers", tokenHeaders)]
  /\ maskSensitiveData ascii_lower default_sensitiveKeys
       (tokenBody "u-id" "s3cr3t" "c0de" "http://localhost:3000/auth/callback")
     = tokenBody "u-id" MASKED "c0de" "http://localhost:3000/auth/callback"
  /\ maskSensitiveData ascii_lower default_sensitiveKeys tokenHeaders = tokenHeaders
  /\ maskSensitiveData ascii_lower default_sensitiveKeys (userInfoHeaders (JStr "tok"))
     = JObj [("Authorization", JStr MASKED)].
Proof.
  split; [intros s _; reflexivity|].
  apply (token_exchange_debug_masking ascii_lower (fun s _ => eq_refl)).
Defined.
